(** * WeChat connector: ingestion, parsing, deduplication and dispatch

    A shallow embedding of the Python sources

    - [src/connector.py]      (class [WeChatConnector]),
    - [src/message_dedup.py]  (class [MessageDeduplicator]),
    - [src/mmkv_reader.py]    (class [MMKVReader]),

    followed by the properties the specification states about them.

    Conventions of the embedding.

    - A Python [str] is a list of Unicode code points ([list N]); a [bytes]
      value is a list of 8-bit integers ([list Z]).
    - A Python [set] of strings is a [gset (list N)].
    - Whatever the code obtains from outside the process (the outcome of a
      webhook call, of a file write, of [stat] on the device, the clock) is
      an explicit argument of the function that consumes it.
    - An exception is a value of type [exn]; code that may raise returns a
      [result].  [print] calls are observability only and are not modelled. *)

From Stdlib Require Import ZArith NArith List Bool Lia String Ascii.
From stdpp Require Import gmap list.
Import ListNotations.

Local Open Scope Z_scope.

(** ** Python strings *)

Abbreviation pystr := (list N).
Abbreviation pybytes := (list Z).

Module PyStr.

(** A string literal of the source that only holds ASCII characters. *)
Definition lit (s : string) : pystr :=
  List.map N_of_ascii (list_ascii_of_string s).

(** [str.isspace] on one character, which is also what [str.strip()] with no
    argument and the regular expression class [\s] test on [str] patterns
    (CPython's [_PyUnicode_IsWhitespace]). *)
Definition isspace (c : N) : bool :=
  ((0x09 <=? c) && (c <=? 0x0D) || (0x1C <=? c) && (c <=? 0x20)
   || (c =? 0x85) || (c =? 0xA0) || (c =? 0x1680)
   || (0x2000 <=? c) && (c <=? 0x200A)
   || (c =? 0x2028) || (c =? 0x2029) || (c =? 0x202F) || (c =? 0x205F)
   || (c =? 0x3000))%N.

Fixpoint lstrip (s : pystr) : pystr :=
  match s with
  | c :: s' => if isspace c then lstrip s' else s
  | [] => []
  end.

Definition rstrip (s : pystr) : pystr := rev (lstrip (rev s)).

(** [s.strip()] *)
Definition strip (s : pystr) : pystr := rstrip (lstrip s).

(** [s.startswith(p)] *)
Fixpoint startswith (p s : pystr) : bool :=
  match p, s with
  | [], _ => true
  | a :: p', b :: s' => (a =? b)%N && startswith p' s'
  | _ :: _, [] => false
  end.

(** [s.find(sep)], with [None] for Python's [-1]. *)
Fixpoint find (sep s : pystr) : option nat :=
  if startswith sep s then Some 0%nat
  else match s with
       | [] => None
       | _ :: s' => option_map S (find sep s')
       end.

(** [sep in s] *)
Definition contains (sep s : pystr) : bool :=
  match find sep s with Some _ => true | None => false end.

(** [s.split(sep, 1)]: at most one split, at the first occurrence. *)
Definition split1 (sep s : pystr) : list pystr :=
  match find sep s with
  | Some i => [firstn i s; skipn (i + length sep) s]
  | None => [s]
  end.

(** [parts[i]] on a list of strings; the callers guard the index, the
    default stands for the [IndexError] they exclude. *)
Definition item (parts : list pystr) (i : nat) : pystr := nth i parts [].

(** [str(b)] for a [bool], which is what an f-string field [{b}] renders. *)
Definition str_of_bool (b : bool) : pystr :=
  if b then lit "True" else lit "False".

(** [s.encode('utf-8')].  A lone surrogate raises [UnicodeEncodeError]
    ([None] here); a [str] holds no code point above U+10FFFF. *)
Definition utf8_char (c : N) : option pybytes :=
  let z := Z.of_N c in
  if z <? 0x80 then Some [z]
  else if z <? 0x800 then
    Some [Z.lor 0xC0 (Z.shiftr z 6); Z.lor 0x80 (Z.land z 0x3F)]
  else if (0xD800 <=? z) && (z <=? 0xDFFF) then None
  else if z <? 0x10000 then
    Some [Z.lor 0xE0 (Z.shiftr z 12);
          Z.lor 0x80 (Z.land (Z.shiftr z 6) 0x3F);
          Z.lor 0x80 (Z.land z 0x3F)]
  else if z <? 0x110000 then
    Some [Z.lor 0xF0 (Z.shiftr z 18);
          Z.lor 0x80 (Z.land (Z.shiftr z 12) 0x3F);
          Z.lor 0x80 (Z.land (Z.shiftr z 6) 0x3F);
          Z.lor 0x80 (Z.land z 0x3F)]
  else None.

Fixpoint encode_utf8 (s : pystr) : option pybytes :=
  match s with
  | [] => Some []
  | c :: s' =>
      match utf8_char c, encode_utf8 s' with
      | Some b, Some bs => Some (b ++ bs)
      | _, _ => None
      end
  end.

(** The strings [encode_utf8] accepts: Unicode scalar values only. *)
Definition scalar (c : N) : bool :=
  ((c <? 0xD800) || (0xDFFF <? c) && (c <? 0x110000))%N.

End PyStr.

(** ** [hashlib.md5] (RFC 1321) *)

Module MD5.

Definition mask32 : Z := 0xFFFFFFFF.
Definition w32 (x : Z) : Z := Z.land x mask32.
Definition add32 (x y : Z) : Z := w32 (x + y).
Definition not32 (x : Z) : Z := Z.lxor x mask32.
Definition rotl32 (x n : Z) : Z :=
  w32 (Z.lor (Z.shiftl x n) (Z.shiftr x (32 - n))).

Definition F (x y z : Z) : Z := Z.lor (Z.land x y) (Z.land (not32 x) z).
Definition G (x y z : Z) : Z := Z.lor (Z.land x z) (Z.land y (not32 z)).
Definition H (x y z : Z) : Z := Z.lxor (Z.lxor x y) z.
Definition I (x y z : Z) : Z := Z.lxor y (Z.lor x (not32 z)).

(** Per-round shift amounts. *)
Definition S_tab : list Z :=
  [7; 12; 17; 22; 7; 12; 17; 22; 7; 12; 17; 22; 7; 12; 17; 22;
   5;  9; 14; 20; 5;  9; 14; 20; 5;  9; 14; 20; 5;  9; 14; 20;
   4; 11; 16; 23; 4; 11; 16; 23; 4; 11; 16; 23; 4; 11; 16; 23;
   6; 10; 15; 21; 6; 10; 15; 21; 6; 10; 15; 21; 6; 10; 15; 21].

(** [K_tab[i] = floor (2^32 * abs (sin (i + 1)))]. *)
Definition K_tab : list Z :=
  [0xd76aa478; 0xe8c7b756; 0x242070db; 0xc1bdceee;
   0xf57c0faf; 0x4787c62a; 0xa8304613; 0xfd469501;
   0x698098d8; 0x8b44f7af; 0xffff5bb1; 0x895cd7be;
   0x6b901122; 0xfd987193; 0xa679438e; 0x49b40821;
   0xf61e2562; 0xc040b340; 0x265e5a51; 0xe9b6c7aa;
   0xd62f105d; 0x02441453; 0xd8a1e681; 0xe7d3fbc8;
   0x21e1cde6; 0xc33707d6; 0xf4d50d87; 0x455a14ed;
   0xa9e3e905; 0xfcefa3f8; 0x676f02d9; 0x8d2a4c8a;
   0xfffa3942; 0x8771f681; 0x6d9d6122; 0xfde5380c;
   0xa4beea44; 0x4bdecfa9; 0xf6bb4b60; 0xbebfbc70;
   0x289b7ec6; 0xeaa127fa; 0xd4ef3085; 0x04881d05;
   0xd9d4d039; 0xe6db99e5; 0x1fa27cf8; 0xc4ac5665;
   0xf4292244; 0x432aff97; 0xab9423a7; 0xfc93a039;
   0x655b59c3; 0x8f0ccc92; 0xffeff47d; 0x85845dd1;
   0x6fa87e4f; 0xfe2ce6e0; 0xa3014314; 0x4e0811a1;
   0xf7537e82; 0xbd3af235; 0x2ad7d2bb; 0xeb86d391].

Record state := St { sa : Z; sb : Z; sc : Z; sd : Z }.

Definition init : state :=
  St 0x67452301 0xefcdab89 0x98badcfe 0x10325476.

(** Little-endian 32-bit word of four bytes, and back. *)
Definition word_of (b0 b1 b2 b3 : Z) : Z :=
  Z.lor b0 (Z.lor (Z.shiftl b1 8) (Z.lor (Z.shiftl b2 16) (Z.shiftl b3 24))).

Definition bytes_of (x : Z) : pybytes :=
  [Z.land x 0xFF; Z.land (Z.shiftr x 8) 0xFF;
   Z.land (Z.shiftr x 16) 0xFF; Z.land (Z.shiftr x 24) 0xFF].

Fixpoint words (n : nat) (bs : pybytes) : list Z :=
  match n, bs with
  | S n', b0 :: b1 :: b2 :: b3 :: bs' => word_of b0 b1 b2 b3 :: words n' bs'
  | _, _ => []
  end.

(** One of the 64 operations of a block. *)
Definition step (M : list Z) (i : Z) (s : state) : state :=
  let '(St a b c d) := s in
  let '(f, g) :=
    if i <? 16 then (F b c d, i)
    else if i <? 32 then (G b c d, (5 * i + 1) mod 16)
    else if i <? 48 then (H b c d, (3 * i + 5) mod 16)
    else (I b c d, (7 * i) mod 16) in
  let k := nth (Z.to_nat i) K_tab 0 in
  let m := nth (Z.to_nat g) M 0 in
  let r := nth (Z.to_nat i) S_tab 0 in
  let f' := add32 (add32 (add32 f a) k) m in
  St d (add32 b (rotl32 f' r)) b c.

Definition block (s : state) (bs : pybytes) : state :=
  let M := words 16 bs in
  let s' := fold_left (fun acc i => step M (Z.of_nat i) acc) (seq 0 64) s in
  St (add32 (sa s) (sa s')) (add32 (sb s) (sb s'))
     (add32 (sc s) (sc s')) (add32 (sd s) (sd s')).

(** Padding: a 1 bit, zeros up to 56 mod 64, the bit length on 64 bits. *)
Definition pad (bs : pybytes) : pybytes :=
  let n := Z.of_nat (length bs) in
  let zeros := Z.to_nat ((55 - n) mod 64) in
  let bits := 8 * n in
  bs ++ [0x80] ++ repeat 0 zeros
     ++ bytes_of (Z.land bits mask32)
     ++ bytes_of (Z.land (Z.shiftr bits 32) mask32).

Fixpoint blocks (n : nat) (s : state) (bs : pybytes) : state :=
  match n with
  | O => s
  | S n' => blocks n' (block s (firstn 64 bs)) (skipn 64 bs)
  end.

(** [hashlib.md5(bs).digest()] *)
Definition digest (bs : pybytes) : pybytes :=
  let p := pad bs in
  let s := blocks (length p / 64) init p in
  bytes_of (sa s) ++ bytes_of (sb s) ++ bytes_of (sc s) ++ bytes_of (sd s).

Definition hexchar (n : Z) : N :=
  Z.to_N (if n <? 10 then 48 + n else 87 + n).

Definition hexbyte (b : Z) : pystr :=
  [hexchar (Z.shiftr b 4); hexchar (Z.land b 0xF)].

(** [hashlib.md5(bs).hexdigest()] *)
Definition hexdigest (bs : pybytes) : pystr :=
  concat (List.map hexbyte (digest bs)).

End MD5.

(** ** The subset of [re] the connector uses *)

Module Re.

(** Character classes: a literal character, [\s], and [[^c]]. *)
Inductive cclass := CChar (c : N) | CSpace | CNot (c : N).

Definition in_class (k : cclass) (x : N) : bool :=
  match k with
  | CChar c => (x =? c)%N
  | CSpace => PyStr.isspace x
  | CNot c => negb (x =? c)%N
  end.

(** Patterns: the empty pattern, a run of literal characters, one character of
    a class, the greedy repetitions [k*] and [k+] of a class, a capturing
    group and concatenation. *)
Inductive regex :=
| REps
| RLit (l : pystr)
| RClass (k : cclass)
| RStar (k : cclass)
| RPlus (k : cclass)
| RGroup (r : regex)
| RSeq (r1 r2 : regex).

Definition cat (rs : list regex) : regex := fold_right RSeq REps rs.

Section Matcher.
Context {X : Type}.

(** Greedy repetition with backtracking: the longest run is tried first and
    given back one character at a time while the rest of the pattern,
    the continuation [k], fails. *)
Fixpoint star (p : N -> bool) (s : pystr) (k : pystr -> option X) : option X :=
  match s with
  | c :: s' =>
      if p c then
        match star p s' k with
        | Some r => Some r
        | None => k s
        end
      else k s
  | [] => k []
  end.

(** [rmatch r s g k]: match [r] at the start of [s], with the groups [g]
    closed so far, then continue with [k] on what is left. *)
Fixpoint rmatch (r : regex) (s : pystr) (g : list pystr)
    (k : pystr -> list pystr -> option X) : option X :=
  match r with
  | REps => k s g
  | RLit l =>
      if PyStr.startswith l s then k (skipn (length l) s) g else None
  | RClass c =>
      match s with
      | x :: s' => if in_class c x then k s' g else None
      | [] => None
      end
  | RStar c => star (in_class c) s (fun s' => k s' g)
  | RPlus c =>
      match s with
      | x :: s' =>
          if in_class c x then star (in_class c) s' (fun s'' => k s'' g)
          else None
      | [] => None
      end
  | RGroup r' =>
      rmatch r' s g
        (fun s' g' => k s' (g' ++ [firstn (length s - length s') s]))
  | RSeq r1 r2 => rmatch r1 s g (fun s1 g1 => rmatch r2 s1 g1 k)
  end.

End Matcher.

(** A match anchored at the start of [s]: the groups and the text after the
    match. *)
Definition match_at (r : regex) (s : pystr) : option (list pystr * pystr) :=
  rmatch r s [] (fun s' g => Some (g, s')).

(** [re.findall(r, s)] for a pattern with groups: scan left to right, at each
    position try an anchored match, on success yield its groups and resume
    right after the match.  [skip] counts the characters of the last match
    still to step over.  Exact for patterns that match no empty string, as
    the one below (the rules of [findall] for empty matches never apply). *)
Fixpoint findall_from (r : regex) (skip : nat) (s : pystr) : list (list pystr) :=
  match s with
  | [] => []
  | _ :: s' =>
      match skip with
      | S n => findall_from r n s'
      | O =>
          match match_at r s with
          | Some (g, rest) =>
              g :: findall_from r (length s - length rest - 1) s'
          | None => findall_from r 0 s'
          end
      end
  end.

Definition findall (r : regex) (s : pystr) : list (list pystr) :=
  findall_from r 0 s.

End Re.

(** ** The data model *)

(** A raw fragment: the dict [{"content": ..., "nickname": ...}]. *)
Record fragment := Fragment { pc_content : pystr; pc_nickname : pystr }.

(** A structured message: the dict
    [{"sender": ..., "content": ..., "is_group": ..., "chat_name": ...}]. *)
Record message := Message {
  msg_sender : pystr;
  msg_content : pystr;
  msg_is_group : bool;
  msg_chat_name : pystr
}.

Inductive exn :=
| OSError
| ValueError
| AttributeError
| TypeError
| UnicodeEncodeError.

Inductive result (A : Type) :=
| Ok (a : A)
| Raise (e : exn).
Arguments Ok {A} a.
Arguments Raise {A} e.

#[global] Instance exn_eq_dec : EqDecision exn.
Proof. solve_decision. Defined.

#[global] Instance result_eq_dec {A} `{EqDecision A} : EqDecision (result A).
Proof. solve_decision. Defined.

#[global] Instance fragment_eq_dec : EqDecision fragment.
Proof. solve_decision. Defined.

#[global] Instance message_eq_dec : EqDecision message.
Proof. solve_decision. Defined.

(** The double quote, U+0022. *)
Definition dquote : N := 34%N.

(** The pattern both extractors compile.  In words: the literal
    [<pushcontent], one or more [\s], the literal [content=], a double quote,
    group 1 (any number of characters other than the double quote), a double
    quote, one or more [\s], the literal [nickname=], a double quote, group 2
    (again any number of non-quote characters), a double quote, any number of
    [\s], the literal [/>]. *)
Definition pushcontent_pattern : Re.regex :=
  Re.cat
    [Re.RLit (PyStr.lit "<pushcontent"); Re.RPlus Re.CSpace;
     Re.RLit (PyStr.lit "content="); Re.RClass (Re.CChar dquote);
     Re.RGroup (Re.RStar (Re.CNot dquote)); Re.RClass (Re.CChar dquote);
     Re.RPlus Re.CSpace;
     Re.RLit (PyStr.lit "nickname="); Re.RClass (Re.CChar dquote);
     Re.RGroup (Re.RStar (Re.CNot dquote)); Re.RClass (Re.CChar dquote);
     Re.RStar Re.CSpace; Re.RLit (PyStr.lit "/>")].

(** [for content_text, nickname in matches: results.append({...})] *)
Definition fragment_of_groups (g : list pystr) : fragment :=
  {| pc_content := PyStr.item g 0; pc_nickname := PyStr.item g 1 |}.

(** ** [MessageDeduplicator] ([src/message_dedup.py]) *)

Module MessageDeduplicator.

(** A JSON document as [json.load] returns it; an object keeps its members in
    document order. *)
#[warnings="-register-all"]
Inductive json :=
| JNull
| JBool (b : bool)
| JNum (repr : pystr)
| JStr (s : pystr)
| JArr (l : list json)
| JObj (kv : list (pystr * json)).

(** The file at [storage_path].  What [json.dump] wrote is what [json.load]
    reads back, so a readable file is kept as the document it holds;
    [Bytes None] is a file that holds no JSON document (empty, truncated,
    otherwise malformed, or not UTF-8). *)
Inductive disk :=
| NoFile
| Locked
| Bytes (doc : option json).

(** [os.path.exists(self.storage_path)] *)
Definition path_exists (d : disk) : bool :=
  match d with NoFile => false | _ => true end.

(** The instance: [self._processed_ids].  The model keeps the [str] members
    of the Python set.  A member that is not a [str] (possible only after
    loading a hand-written file) never equals a message id, which is a
    [str], so no answer of [is_processed] depends on it. *)
Record store := Store { _processed_ids : gset pystr }.

(** [d.get(key, default)] on a decoded object: of two members with one key
    the later one stands. *)
Fixpoint dict_get (kv : list (pystr * json)) (key : pystr) (default : json) : json :=
  match kv with
  | [] => default
  | (k, v) :: kv' => dict_get kv' key (if bool_decide (k = key) then v else default)
  end.

(** [set(l)] for a decoded array: an array or object among the elements is
    unhashable. *)
Fixpoint set_of_list (l : list json) : result (gset pystr) :=
  match l with
  | [] => Ok ∅
  | j :: l' =>
      match j with
      | JArr _ | JObj _ => Raise TypeError
      | JStr s =>
          match set_of_list l' with
          | Ok X => Ok ({[ s ]} ∪ X)
          | Raise e => Raise e
          end
      | JNull | JBool _ | JNum _ => set_of_list l'
      end
  end.

(** [set(x)] for any decoded value: a string iterates over its characters,
    an object over its keys, the scalars are not iterable. *)
Definition set_of (x : json) : result (gset pystr) :=
  match x with
  | JArr l => set_of_list l
  | JStr s => Ok (list_to_set (List.map (fun c => [c]) s))
  | JObj kv => Ok (list_to_set (List.map fst kv))
  | JNull | JBool _ | JNum _ => Raise TypeError
  end.

(** The body of the [try] of [_load]. *)
Definition load_body (d : disk) : result (gset pystr) :=
  match d with
  | NoFile | Locked => Raise OSError
  | Bytes None => Raise ValueError
  | Bytes (Some data) =>
      match data with
      | JObj kv => set_of (dict_get kv (PyStr.lit "processed_ids") (JArr []))
      | _ => Raise AttributeError
      end
  end.

Definition _load (self : store) (d : disk) : store :=
  if path_exists d then
    match load_body d with
    | Ok ids => Store ids
    | Raise _ => Store ∅
    end
  else self.

Definition __init__ (d : disk) : store := _load (Store ∅) d.

(** What the file system answers during one [_save]. *)
Record save_io := SaveIO {
  makedirs_ok : bool;   (* [os.makedirs(dirname, exist_ok=True)] returns *)
  open_ok : bool;       (* [open(path, 'w')] returns *)
  write_ok : bool       (* every write, and the close, return *)
}.

Definition encodable (s : pystr) : bool :=
  match PyStr.encode_utf8 s with Some _ => true | None => false end.

(** The document [_save] writes; [list(set)] enumerates in no fixed order,
    [elements] fixes one. *)
Definition document (ids : gset pystr) (now : pystr) : json :=
  JObj [(PyStr.lit "processed_ids", JArr (List.map JStr (elements ids)));
        (PyStr.lit "last_update", JStr now)].

(** The body of the [try] of [_save], with the file it leaves behind.  Once
    [open] has returned the old content is gone; a write that raises, or an
    id that the UTF-8 text layer cannot encode, leaves a truncated file. *)
Definition save_body (self : store) (now : pystr) (io : save_io) (d : disk)
  : result unit * disk :=
  if negb (makedirs_ok io) then (Raise OSError, d)
  else if negb (open_ok io) then (Raise OSError, d)
  else if negb (forallb encodable (elements (_processed_ids self))) then
    (Raise UnicodeEncodeError, Bytes None)
  else if negb (write_ok io) then (Raise OSError, Bytes None)
  else (Ok tt, Bytes (Some (document (_processed_ids self) now))).

(** [_save] swallows every exception of its body. *)
Definition _save (self : store) (now : pystr) (io : save_io) (d : disk) : disk :=
  snd (save_body self now io d).

Definition is_processed (self : store) (message_id : pystr) : bool :=
  bool_decide (message_id ∈ _processed_ids self).

Definition mark_processed (self : store) (message_id : pystr)
    (now : pystr) (io : save_io) (d : disk) : store * disk :=
  let self' := Store ({[ message_id ]} ∪ _processed_ids self) in
  (self', _save self' now io d).

Definition reset (self : store) (now : pystr) (io : save_io) (d : disk)
  : store * disk :=
  let self' := Store ∅ in
  (self', _save self' now io d).

(** The ["processed_ids"] member of a saved file, as the list of its string
    elements; [None] when the file holds no such array. *)
Definition persisted_ids (d : disk) : option (list pystr) :=
  match d with
  | Bytes (Some (JObj kv)) =>
      match dict_get kv (PyStr.lit "processed_ids") JNull with
      | JArr l =>
          Some (omap (fun j => match j with JStr s => Some s | _ => None end) l)
      | _ => None
      end
  | _ => None
  end.

End MessageDeduplicator.

(** ** [MMKVReader] ([src/mmkv_reader.py]) *)

Module MMKVReader.

(** What [get_file_stat] returns when it returns a dict. *)
Record file_stat := FileStat { mtime : Z; size : Z }.

Record reader := Reader { _last_mtime : option Z; _last_size : Z }.

Definition __init__ : reader := Reader None 0.

(** [has_new_content]; [stat] is the answer of [self.get_file_stat()]. *)
Definition has_new_content (stat : option file_stat) (self : reader)
  : bool * reader :=
  match stat with
  | None => (false, self)
  | Some st =>
      let current_mtime := mtime st in
      let current_size := size st in
      match _last_mtime self with
      | None => (true, Reader (Some current_mtime) current_size)
      | Some last_mtime =>
          let has_changed :=
            negb (current_mtime =? last_mtime)
            || negb (current_size =? _last_size self) in
          (has_changed, Reader (Some current_mtime) current_size)
      end
  end.

Definition extract_pushcontent (content : pystr) : list fragment :=
  List.map fragment_of_groups (Re.findall pushcontent_pattern content).

(** Successive calls of [has_new_content], one per answer of [stat]. *)
Fixpoint calls (stats : list (option file_stat)) (self : reader)
  : list bool * reader :=
  match stats with
  | [] => ([], self)
  | st :: rest =>
      let '(b, self') := has_new_content st self in
      let '(bs, self'') := calls rest self' in
      (b :: bs, self'')
  end.

(** The last file state a sequence of [stat] answers has shown. *)
Definition last_observed (stats : list (option file_stat)) : option file_stat :=
  last (omap id stats).

End MMKVReader.

(** ** [WeChatConnector] ([src/connector.py]) *)

Module WeChatConnector.

Import MessageDeduplicator.

(** The string constants of the class. *)
Definition group_sentinel_cn : pystr := [0x7FA4; 0x804A]%N.   (* U+7FA4 U+804A *)
Definition group_with_AI : pystr := PyStr.lit "group_with_AI".
Definition unknown_sender : pystr := [0x672A; 0x77E5]%N.      (* U+672A U+77E5 *)
Definition direct_label : pystr := PyStr.lit "Mwu" ++ [0xFF01]%N.  (* Mwu, U+FF01 *)
Definition separator : pystr := PyStr.lit " : ".

Definition _extract_pushcontent (content : pystr) : list fragment :=
  List.map fragment_of_groups (Re.findall pushcontent_pattern content).

(** [_parse_message]; its return type is [Optional[Dict]]. *)
Definition _parse_message (pushcontent : fragment) : option message :=
  let nickname := PyStr.strip (pc_nickname pushcontent) in
  let content_text := pc_content pushcontent in
  let is_group :=
    bool_decide (nickname = group_sentinel_cn)
    || bool_decide (nickname = group_with_AI) in
  if is_group then
    let chat_name := group_with_AI in
    let '(sender, msg_content) :=
      if PyStr.contains separator content_text then
        let parts := PyStr.split1 separator content_text in
        (PyStr.strip (PyStr.item parts 0),
         if (1 <? length parts)%nat then PyStr.strip (PyStr.item parts 1)
         else [])
      else (unknown_sender, content_text) in
    Some (Message sender msg_content is_group chat_name)
  else
    let sender := nickname in
    let chat_name := direct_label in
    let msg_content :=
      if PyStr.contains separator content_text then
        let parts := PyStr.split1 separator content_text in
        if (1 <? length parts)%nat then PyStr.strip (PyStr.item parts 1)
        else content_text
      else content_text in
    Some (Message sender msg_content is_group chat_name).

(** The dedup key [f"{is_group}:{sender}:{content}"]. *)
Definition message_key (is_group : bool) (sender content : pystr) : pystr :=
  PyStr.str_of_bool is_group ++ PyStr.lit ":" ++ sender
    ++ PyStr.lit ":" ++ content.

Definition _compute_message_id (is_group : bool) (sender content : pystr)
  : result pystr :=
  let key := message_key is_group sender content in
  match PyStr.encode_utf8 key with
  | Some bs => Ok (MD5.hexdigest bs)
  | None => Raise UnicodeEncodeError
  end.

(** What comes back from [urllib.request.urlopen]: a response with a status,
    or an exception (connection refused, timeout, an HTTP error status). *)
Inductive http_reply := Status (code : Z) | NoReply.

(** [_send_to_webhook]: the arguments shape the request; what it returns is
    decided by the reply alone. *)
Definition _send_to_webhook (chat_name sender content : pystr)
    (reply : http_reply) : bool :=
  match reply with
  | Status code => code =? 200
  | NoReply => false
  end.

(** One call of [_send_to_webhook], as the endpoint's side sees it. *)
Record attempt := Attempt { a_msg : message; a_ok : bool }.

(** The surroundings of a run: the reply to the [n]-th webhook call, and the
    clock and the file system at the [n]-th save. *)
Record oracle := Oracle {
  http : nat -> http_reply;
  clock : nat -> pystr;
  fsio : nat -> save_io
}.

(** The connector with what it acts on: [self.dedup], the file behind it,
    the webhook calls made so far and the number of saves so far. *)
Record conn := Conn {
  dedup : store;
  file : disk;
  outbox : list attempt;
  saves : nat
}.

(** Code of the connector: it reads and updates a [conn], and returns or
    raises. *)
Definition M (A : Type) : Type := conn -> result A * conn.

Definition ret {A} (a : A) : M A := fun c => (Ok a, c).

Definition bind {A B} (m : M A) (f : A -> M B) : M B :=
  fun c =>
    match m c with
    | (Ok a, c') => f a c'
    | (Raise e, c') => (Raise e, c')
    end.

Definition lift {A} (r : result A) : M A := fun c => (r, c).

Notation "'let*' x ':=' m 'in' f" := (bind m (fun x => f))
  (at level 10, x name, m at level 100, f at level 200).

Section Run.
Variable env : oracle.

(** [self.dedup.is_processed(message_id)] *)
Definition dedup_is_processed (message_id : pystr) : M bool :=
  fun c => (Ok (is_processed (dedup c) message_id), c).

(** [self.dedup.mark_processed(message_id)] *)
Definition dedup_mark_processed (message_id : pystr) : M unit :=
  fun c =>
    let '(d', f') :=
      mark_processed (dedup c) message_id
        (clock env (saves c)) (fsio env (saves c)) (file c) in
    (Ok tt, Conn d' f' (outbox c) (S (saves c))).

(** [self._send_to_webhook(chat_name, sender, content)] for message [msg]. *)
Definition send (msg : message) : M bool :=
  fun c =>
    let success :=
      _send_to_webhook (msg_chat_name msg) (msg_sender msg) (msg_content msg)
        (http env (length (outbox c))) in
    (Ok success,
     Conn (dedup c) (file c) (outbox c ++ [Attempt msg success]) (saves c)).

Definition process_message (pushcontent : fragment) : M bool :=
  match _parse_message pushcontent with
  | None => ret false
  | Some msg =>
      let sender := msg_sender msg in
      let content := msg_content msg in
      let is_group := msg_is_group msg in
      let* message_id := lift (_compute_message_id is_group sender content) in
      let* known := dedup_is_processed message_id in
      if known then ret false
      else
        let* success := send msg in
        if success then
          let* _ := dedup_mark_processed message_id in
          ret true
        else ret false
  end.

(** The [for pc in pushcontents] loop of [poll_once]. *)
Fixpoint process_all (pushcontents : list fragment) (processed_count : nat)
  : M nat :=
  match pushcontents with
  | [] => ret processed_count
  | pc :: rest =>
      let* b := process_message pc in
      process_all rest (if b then S processed_count else processed_count)
  end.

(** [poll_once]; [content] is the answer of [self.reader.read_text_content()]. *)
Definition poll_once (content : option pystr) : M nat :=
  match content with
  | None => ret 0%nat
  | Some text =>
      let pushcontents := _extract_pushcontent text in
      match pushcontents with
      | [] => ret 0%nat
      | _ => process_all pushcontents 0
      end
  end.

End Run.

(** The identity of the message of a webhook call. *)
Definition attempt_id (a : attempt) : result pystr :=
  _compute_message_id (msg_is_group (a_msg a)) (msg_sender (a_msg a))
    (msg_content (a_msg a)).

End WeChatConnector.

(** ** Vocabulary of the statements *)

Import WeChatConnector MessageDeduplicator.

(** A lower-case hexadecimal digit. *)
Definition is_hex (c : N) : bool :=
  ((48 <=? c) && (c <=? 57) || (97 <=? c) && (c <=? 102))%N.

(** The text of a tag with the given whitespace runs. *)
Definition render_tag (ws1 ws2 ws3 : pystr) (f : fragment) : pystr :=
  PyStr.lit "<pushcontent" ++ ws1 ++ PyStr.lit "content=" ++ [dquote]
    ++ pc_content f ++ [dquote] ++ ws2 ++ PyStr.lit "nickname=" ++ [dquote]
    ++ pc_nickname f ++ [dquote] ++ ws3 ++ PyStr.lit "/>".

Definition plain_tag (f : fragment) : pystr := render_tag [32%N] [32%N] [] f.

Definition always_ok : oracle :=
  Oracle (fun _ => Status 200) (fun _ => PyStr.lit "2026-02-18T20:55:49")
         (fun _ => SaveIO true true true).

Definition fresh : conn := Conn (Store ∅) NoFile [] 0.

(** [s] splits at [sep] into [l] and [r], and no occurrence of [sep] in [s]
    starts further left. *)
Definition first_split (sep s l r : pystr) : Prop :=
  s = l ++ sep ++ r
  /\ forall l' r', s = l' ++ sep ++ r' -> (length l <= length l')%nat.

(** [sep] occurs nowhere in [s]. *)
Definition absent (sep s : pystr) : Prop :=
  forall l r, s <> l ++ sep ++ r.

(** [t] is [s] without its leading and trailing whitespace. *)
Definition trimmed_of (s t : pystr) : Prop :=
  exists ws1 ws2,
    s = ws1 ++ t ++ ws2
    /\ forallb PyStr.isspace ws1 = true
    /\ forallb PyStr.isspace ws2 = true
    /\ (forall c t', t = c :: t' -> PyStr.isspace c = false)
    /\ (forall c t', t = t' ++ [c] -> PyStr.isspace c = false).

(** The two nicknames that mark a group message. *)
Definition is_sentinel (nickname : pystr) : Prop :=
  nickname = group_sentinel_cn \/ nickname = group_with_AI.


(** What a pattern matches, with the groups it closes.  Groups are listed in
    the order in which they close, which is the order of [re] when no group
    stands inside another. *)
Inductive lang : Re.regex -> pystr -> list pystr -> Prop :=
| lang_eps : lang Re.REps [] []
| lang_lit l : lang (Re.RLit l) l []
| lang_class k x : Re.in_class k x = true -> lang (Re.RClass k) [x] []
| lang_star k w :
    forallb (Re.in_class k) w = true -> lang (Re.RStar k) w []
| lang_plus k w :
    w <> [] -> forallb (Re.in_class k) w = true -> lang (Re.RPlus k) w []
| lang_group r w caps : lang r w caps -> lang (Re.RGroup r) w (caps ++ [w])
| lang_seq r1 r2 w1 w2 c1 c2 :
    lang r1 w1 c1 -> lang r2 w2 c2 ->
    lang (Re.RSeq r1 r2) (w1 ++ w2) (c1 ++ c2).

Definition spaces (ws : pystr) : Prop := forallb PyStr.isspace ws = true.

Definition quote_free (s : pystr) : Prop :=
  forallb (fun x => negb (x =? dquote)%N) s = true.

(** [t] is a well-formed tag that carries the fragment [f]. *)
Inductive tag_text : pystr -> fragment -> Prop :=
| tag_text_intro ws1 ws2 ws3 f :
    ws1 <> [] -> spaces ws1 -> ws2 <> [] -> spaces ws2 -> spaces ws3 ->
    quote_free (pc_content f) -> quote_free (pc_nickname f) ->
    tag_text (render_tag ws1 ws2 ws3 f) f.

(** A well-formed tag starts at the first character of [s]. *)
Definition tag_starts (s : pystr) : Prop :=
  exists t f rest, tag_text t f /\ s = t ++ rest.

(** The fragments of a text, read from left to right: where a well-formed
    tag starts, its fragment, and on after the tag; elsewhere, on after one
    character. *)
Inductive scan : pystr -> list fragment -> Prop :=
| scan_end : scan [] []
| scan_tag t f rest fs :
    tag_text t f -> scan rest fs -> scan (t ++ rest) (f :: fs)
| scan_skip c s fs :
    ~ tag_starts (c :: s) -> scan s fs -> scan (c :: s) fs.

(** No well-formed tag starts inside the first [n] characters of [s]. *)
Definition no_tag_within (n : nat) (s : pystr) : Prop :=
  forall i, (i < n)%nat -> ~ tag_starts (skipn i s).

(** Does the text start with a character of the class? *)
Definition head_in (p : N -> bool) (s : pystr) : bool :=
  match s with
  | x :: _ => p x
  | [] => false
  end.

(** Sample fragments and texts. *)
Definition alice : fragment := Fragment (PyStr.lit "Alice : hi") group_sentinel_cn.
Definition bob : fragment := Fragment (PyStr.lit "hello") (PyStr.lit "Bob").
Definition carol : fragment := Fragment (PyStr.lit "see you") (PyStr.lit "Carol").

(** A tag without its [nickname] attribute. *)
Definition malformed_tag : pystr :=
  PyStr.lit "<pushcontent content=" ++ [dquote] ++ PyStr.lit "oops"
    ++ [dquote] ++ PyStr.lit " />".


(** The identities to mark, each with the clock reading and the answers of
    the file system at its save. *)
Fixpoint mark_all (marks : list (pystr * pystr * save_io))
    (self : store) (d : disk) : store * disk :=
  match marks with
  | [] => (self, d)
  | (id, now, io) :: rest =>
      let '(self', d') := mark_processed self id now io d in
      mark_all rest self' d'
  end.

Definition marked (marks : list (pystr * pystr * save_io)) : list pystr :=
  List.map (fun m => fst (fst m)) marks.

(** The save of [self] under [io] goes through: the directory is there, the
    file opens, every write returns, and every id is text that UTF-8 can
    encode (as every MD5 hex digest is). *)
Definition save_succeeds (self : store) (io : save_io) : Prop :=
  makedirs_ok io = true /\ open_ok io = true /\ write_ok io = true
  /\ forall x, x ∈ _processed_ids self -> encodable x = true.

Definition io_ok : save_io := SaveIO true true true.

(** How often [id] stands in a list of ids. *)
Definition occurrences (id : pystr) (l : list pystr) : nat :=
  length (List.filter (fun x => bool_decide (x = id)) l).

(** The identities the connector's store holds. *)
Definition known (c : conn) : gset pystr := _processed_ids (dedup c).

(** The webhook calls made between two states of one run. *)
Definition since (c c' : conn) : list attempt :=
  skipn (length (outbox c)) (outbox c').

(** After a call that succeeded, no later call is for the same identity. *)
Fixpoint settled (T : list attempt) : Prop :=
  match T with
  | [] => True
  | a :: post =>
      (a_ok a = true -> forall b, b ∈ post -> attempt_id b <> attempt_id a)
      /\ settled post
  end.

(** How many calls for identity [id] succeeded. *)
Definition successes (id : pystr) (T : list attempt) : nat :=
  length (List.filter
            (fun a => a_ok a && bool_decide (attempt_id a = Ok id)) T).

(** A stretch of a run from [c] to [c'] with the webhook calls [T]: the
    calls are appended to the outbox; the store only grows; each call is for
    an identity unknown at [c]; an identity whose call succeeded is known at
    [c']; what is known at [c'] was known at [c] or had a call that
    succeeded; and the calls are [settled]. *)
Record stretch (c : conn) (T : list attempt) (c' : conn) : Prop := Stretch {
  st_outbox : outbox c' = outbox c ++ T;
  st_grows : known c ⊆ known c';
  st_fresh :
    forall a, a ∈ T -> exists id, attempt_id a = Ok id /\ id ∉ known c;
  st_marks :
    forall a id, a ∈ T -> a_ok a = true -> attempt_id a = Ok id ->
                 id ∈ known c';
  st_only :
    forall id, id ∈ known c' ->
               id ∈ known c
               \/ exists a, a ∈ T /\ a_ok a = true /\ attempt_id a = Ok id;
  st_settled : settled T
}.

(** An endpoint that never answers. *)
Definition never_replies : oracle :=
  Oracle (fun _ => NoReply) (fun _ => PyStr.lit "2026-02-18T20:55:49")
         (fun _ => io_ok).


(** Inversion of [lang] along the constructors of a pattern. *)
Ltac lang_inv :=
  repeat match goal with
         | H : lang (Re.RSeq _ _) _ _ |- _ => inversion H; subst; clear H
         | H : lang (Re.RLit _) _ _ |- _ => inversion H; subst; clear H
         | H : lang (Re.RClass _) _ _ |- _ => inversion H; subst; clear H
         | H : lang (Re.RStar _) _ _ |- _ => inversion H; subst; clear H
         | H : lang (Re.RPlus _) _ _ |- _ => inversion H; subst; clear H
         | H : lang (Re.RGroup _) _ _ |- _ => inversion H; subst; clear H
         | H : lang Re.REps _ _ |- _ => inversion H; subst; clear H
         end.


(** ** More of the sources: decoding, the reader's message list, cycles *)

(** [bytes.decode('utf-8', errors='ignore')] *)
Module Utf8.

(** A continuation byte, [80..BF]. *)
Definition cont (b : Z) : bool := (0x80 <=? b) && (b <=? 0xBF).

Definition between (lo hi b : Z) : bool := (lo <=? b) && (b <=? hi).

(** The well-formed sequence at the head of [bs], if there is one, as its
    code point and its length (the table of well-formed byte sequences of
    the Unicode standard, which CPython's decoder follows: no overlong
    form, no surrogate, nothing above U+10FFFF). *)
Definition decode_one (bs : pybytes) : option (N * nat) :=
  match bs with
  | [] => None
  | b0 :: r0 =>
      if between 0x00 0x7F b0 then Some (Z.to_N b0, 1%nat)
      else if between 0xC2 0xDF b0 then
        match r0 with
        | b1 :: _ =>
            if cont b1 then
              Some (Z.to_N (Z.lor (Z.shiftl (Z.land b0 0x1F) 6)
                                  (Z.land b1 0x3F)), 2%nat)
            else None
        | _ => None
        end
      else if between 0xE0 0xEF b0 then
        match r0 with
        | b1 :: b2 :: _ =>
            if between (if b0 =? 0xE0 then 0xA0 else 0x80)
                       (if b0 =? 0xED then 0x9F else 0xBF) b1
               && cont b2 then
              Some (Z.to_N (Z.lor (Z.shiftl (Z.land b0 0x0F) 12)
                              (Z.lor (Z.shiftl (Z.land b1 0x3F) 6)
                                     (Z.land b2 0x3F))), 3%nat)
            else None
        | _ => None
        end
      else if between 0xF0 0xF4 b0 then
        match r0 with
        | b1 :: b2 :: b3 :: _ =>
            if between (if b0 =? 0xF0 then 0x90 else 0x80)
                       (if b0 =? 0xF4 then 0x8F else 0xBF) b1
               && cont b2 && cont b3 then
              Some (Z.to_N (Z.lor (Z.shiftl (Z.land b0 0x07) 18)
                              (Z.lor (Z.shiftl (Z.land b1 0x3F) 12)
                                 (Z.lor (Z.shiftl (Z.land b2 0x3F) 6)
                                        (Z.land b3 0x3F)))), 4%nat)
            else None
        | _ => None
        end
      else None
  end.

(** Decoding with [errors='ignore']: a well-formed sequence gives its code
    point; where none starts, bytes are dropped.  The bytes CPython drops
    in one step beyond the first are continuation bytes, which start no
    sequence, so dropping one byte at a time gives the same text.  [skip]
    counts the bytes of the last sequence still to step over. *)
Fixpoint decode_from (skip : nat) (bs : pybytes) : pystr :=
  match bs with
  | [] => []
  | _ :: bs' =>
      match skip with
      | S n => decode_from n bs'
      | O =>
          match decode_one bs with
          | Some (c, len) => c :: decode_from (len - 1) bs'
          | None => decode_from 0 bs'
          end
      end
  end.

Definition decode_ignore (bs : pybytes) : pystr := decode_from 0 bs.

End Utf8.

(** The message list of [MMKVReader] ([src/mmkv_reader.py]). *)
Module MMKVMessages.

Import WeChatConnector.

(** The dataclass [MMKVMessage]. *)
Record MMKVMessage := MkMessage {
  message_svr_id : pystr;
  msg_create_time : Z;
  sender : pystr;
  content : pystr;
  is_group : bool;
  group_name : option pystr;
  raw_xml : option pystr
}.

(** [read_text_content]; [raw] is the answer of [self.read_raw_content()].
    The first encoding tried is UTF-8 with [errors='ignore'], which never
    raises, so the loop over encodings returns in its first round. *)
Definition read_text_content (raw : option pybytes) : option pystr :=
  match raw with
  | None => None
  | Some raw => Some (Utf8.decode_ignore raw)
  end.

(** The body of the loop of [parse_messages] for the fragment at index [i]
    of [total]; [now] is [int(time.time())] as read in that round. *)
Definition parse_message_at (now : Z) (total i : nat) (pc : fragment)
  : result MMKVMessage :=
  let nickname := PyStr.strip (pc_nickname pc) in
  let content_text := pc_content pc in
  let is_group :=
    bool_decide (nickname = group_sentinel_cn)
    || bool_decide (nickname = group_with_AI) in
  let '(sender, msg_content, group_name) :=
    if is_group then
      if PyStr.contains separator content_text then
        let parts := PyStr.split1 separator content_text in
        (PyStr.strip (PyStr.item parts 0),
         if (1 <? length parts)%nat then PyStr.strip (PyStr.item parts 1)
         else [],
         @None pystr)
      else (unknown_sender, content_text, None)
    else
      let sender := nickname in
      if PyStr.contains separator content_text then
        let parts := PyStr.split1 separator content_text in
        (sender,
         if (1 <? length parts)%nat then PyStr.strip (PyStr.item parts 1)
         else content_text,
         None)
      else (sender, content_text, None) in
  match PyStr.encode_utf8 (nickname ++ PyStr.lit ":" ++ content_text) with
  | None => Raise UnicodeEncodeError
  | Some bs =>
      let message_id := MD5.hexdigest bs in
      let message_time := now - (Z.of_nat total - Z.of_nat i) in
      Ok (MkMessage message_id message_time sender msg_content is_group
            group_name
            (Some (PyStr.lit "<pushcontent content=" ++ [dquote]
                     ++ pc_content pc ++ [dquote] ++ PyStr.lit " nickname="
                     ++ [dquote] ++ pc_nickname pc ++ [dquote]
                     ++ PyStr.lit " />")))
  end.

(** [for i, pc in enumerate(pushcontents)]: the rounds from index [i] on;
    [clock j] is the clock reading of round [j]. *)
Fixpoint parse_from (clock : nat -> Z) (total i : nat) (pcs : list fragment)
  : result (list MMKVMessage) :=
  match pcs with
  | [] => Ok []
  | pc :: rest =>
      match parse_message_at (clock i) total i pc with
      | Raise e => Raise e
      | Ok msg =>
          match parse_from clock total (S i) rest with
          | Raise e => Raise e
          | Ok msgs => Ok (msg :: msgs)
          end
      end
  end.

Definition parse_messages (clock : nat -> Z) (content : pystr)
  : result (list MMKVMessage) :=
  let pushcontents := MMKVReader.extract_pushcontent content in
  parse_from clock (length pushcontents) 0 pushcontents.

(** [get_messages]; [stat] and [raw] are what [get_file_stat] and
    [read_raw_content] answer if they are called. *)
Definition get_messages (only_new : bool)
    (stat : option MMKVReader.file_stat) (raw : option pybytes)
    (clock : nat -> Z) (self : MMKVReader.reader)
  : result (list MMKVMessage) * MMKVReader.reader :=
  let '(unchanged, self') :=
    if only_new then
      let '(changed, self') := MMKVReader.has_new_content stat self in
      (negb changed, self')
    else (false, self) in
  if unchanged then (Ok [], self')
  else
    match read_text_content raw with
    | None => (Ok [], self')
    | Some content => (parse_messages clock content, self')
    end.

End MMKVMessages.

(** Consecutive poll cycles: the body of the [while] loop of
    [start_polling], once per text read; an exception ends the loop. *)
Fixpoint cycles (env : oracle) (contents : list (option pystr)) : M unit :=
  match contents with
  | [] => ret tt
  | content :: rest =>
      let* _ := poll_once env content in
      cycles env rest
  end.

(** A new process on the same data directory:
    [WeChatConnector.__init__] builds a [MessageDeduplicator] from the
    file. *)
Definition restart (c : conn) : conn :=
  Conn (__init__ (file c)) (file c) [] 0.

(** ** More vocabulary *)

(** The calls that returned true. *)
Definition ok_calls (T : list attempt) : nat :=
  length (List.filter a_ok T).

(** The messages of the fragments of a text. *)
Definition messages_of (text : pystr) : list message :=
  omap _parse_message (_extract_pushcontent text).

(** The identity of the message of a fragment is known. *)
Definition fragment_known (c : conn) (pc : fragment) : Prop :=
  exists msg id,
    _parse_message pc = Some msg
    /\ _compute_message_id (msg_is_group msg) (msg_sender msg)
         (msg_content msg) = Ok id
    /\ id ∈ known c.

(** Every save from the [n]-th on goes through on the side of the file
    system. *)
Definition fs_reliable (env : oracle) (n : nat) : Prop :=
  forall k, (n <= k)%nat ->
            makedirs_ok (fsio env k) = true
            /\ open_ok (fsio env k) = true
            /\ write_ok (fsio env k) = true.

(** Every id of the store is text that UTF-8 can encode. *)
Definition store_encodable (self : store) : Prop :=
  forall x, x ∈ _processed_ids self -> encodable x = true.

(** The file holds the store: a new instance built from it is the store. *)
Definition in_sync (c : conn) : Prop := __init__ (file c) = dedup c.

(** A text with Unicode scalar values only. *)
Definition scalar_text (s : pystr) : Prop := forallb PyStr.scalar s = true.

(** ** [MMKVReader.get_file_stat] ([src/mmkv_reader.py]) *)

Module FileStat.

(** [s.split(c)] for a separator of one character: one more piece than
    there are separators. *)
Fixpoint split_char (c : N) (s : pystr) : list pystr :=
  match s with
  | [] => [[]]
  | x :: s' =>
      if (x =? c)%N then [] :: split_char c s'
      else
        match split_char c s' with
        | w :: ws => (x :: w) :: ws
        | [] => [[x]]
        end
  end.

(** [s.split()]: the maximal runs of non-whitespace; [cur] is the run being
    read. *)
Fixpoint fields_from (cur : option pystr) (s : pystr) : list pystr :=
  match s with
  | [] => match cur with Some w => [w] | None => [] end
  | x :: s' =>
      if PyStr.isspace x then
        match cur with
        | Some w => w :: fields_from None s'
        | None => fields_from None s'
        end
      else
        fields_from (Some (match cur with Some w => w ++ [x] | None => [x] end))
          s'
  end.

Definition split_ws (s : pystr) : list pystr := fields_from None s.

(** The dict [stat] while it is being filled. *)
Record partial := Partial { p_size : option Z; p_mtime : option Z }.

Section WithLibrary.

(** [int(s)]; [None] when it raises [ValueError]. *)
Variable py_int : pystr -> option Z.

(** [int(datetime.strptime(s, "%Y-%m-%d %H:%M:%S").timestamp())] in the
    local time zone; [None] when either call raises. *)
Variable timestamp_of : pystr -> option Z.

(** The body of [for line in output.split('\n')]. *)
Definition read_line (line : pystr) (stat : partial) : result partial :=
  if PyStr.contains (PyStr.lit "Size:") line then
    let parts := split_ws line in
    if (2 <=? length parts)%nat then
      match py_int (PyStr.item parts 1) with
      | Some n => Ok (Partial (Some n) (p_mtime stat))
      | None => Raise ValueError
      end
    else Ok stat
  else if PyStr.contains (PyStr.lit "Modify:") line then
    let time_str :=
      PyStr.strip (PyStr.item (PyStr.split1 (PyStr.lit ":") line) 1) in
    match timestamp_of (PyStr.item (split_char 46%N time_str) 0) with
    | Some t => Ok (Partial (p_size stat) (Some t))
    | None => Ok stat
    end
  else Ok stat.

Fixpoint read_lines (lines : list pystr) (stat : partial) : result partial :=
  match lines with
  | [] => Ok stat
  | line :: rest =>
      match read_line line stat with
      | Ok stat' => read_lines rest stat'
      | Raise e => Raise e
      end
  end.

(** [get_file_stat]; [(success, output)] is the answer of
    [self._run_adb_command]. *)
Definition get_file_stat (success : bool) (output : pystr)
  : option MMKVReader.file_stat :=
  if negb success then None
  else
    match read_lines (split_char 10%N output) (Partial None None) with
    | Ok (Partial (Some size) (Some mtime)) =>
        Some (MMKVReader.FileStat mtime size)
    | _ => None
    end.

End WithLibrary.

End FileStat.

(** A line that sets the size to [n]: it holds [Size:], has two fields or
    more, and its second field is the integer [n]. *)
Definition size_line (py_int : pystr -> option Z) (line : pystr) (n : Z)
  : Prop :=
  PyStr.contains (PyStr.lit "Size:") line = true
  /\ (2 <= length (FileStat.split_ws line))%nat
  /\ py_int (PyStr.item (FileStat.split_ws line) 1) = Some n.

(** A line that holds [Size:] and whose second field is no integer. *)
Definition bad_size_line (py_int : pystr -> option Z) (line : pystr) : Prop :=
  PyStr.contains (PyStr.lit "Size:") line = true
  /\ (2 <= length (FileStat.split_ws line))%nat
  /\ py_int (PyStr.item (FileStat.split_ws line) 1) = None.

(** A line that sets the modification time to [t]: it holds [Modify:] and
    not [Size:], and what follows its first colon, trimmed and cut at the
    first dot, is a time with stamp [t]. *)
Definition modify_line (timestamp_of : pystr -> option Z) (line : pystr)
    (t : Z) : Prop :=
  PyStr.contains (PyStr.lit "Size:") line = false
  /\ PyStr.contains (PyStr.lit "Modify:") line = true
  /\ timestamp_of
       (PyStr.item
          (FileStat.split_char 46%N
             (PyStr.strip
                (PyStr.item (PyStr.split1 (PyStr.lit ":") line) 1))) 0)
     = Some t.

(** A run of [stat] as toybox prints it, and the two library calls
    restricted to the fields this output holds (the time is read in the
    zone UTC+8); they serve as an instance of the section's variables. *)
Definition stat_output : pystr :=
  PyStr.lit "  File: SyncMMKV_773985255" ++ [10%N]
  ++ PyStr.lit "  Size: 131072" ++ [9%N] ++ PyStr.lit " Blocks: 256" ++ [9%N]
  ++ PyStr.lit " IO Blocks: 512" ++ [9%N] ++ PyStr.lit " regular file" ++ [10%N]
  ++ PyStr.lit "Access: 2026-02-18 20:55:48.000000000 +0800" ++ [10%N]
  ++ PyStr.lit "Modify: 2026-02-18 20:55:49.028003312 +0800" ++ [10%N].

Definition int_of_field (s : pystr) : option Z :=
  if bool_decide (s = PyStr.lit "131072") then Some 131072%Z else None.

Definition timestamp_of_field (s : pystr) : option Z :=
  if bool_decide (s = PyStr.lit "2026-02-18 20:55:49") then Some 1771419349%Z
  else None.

(** * Properties *)

(** ** The digest: RFC 1321 test vectors and CPython outputs *)

Example md5_empty :
  MD5.hexdigest [] = PyStr.lit "d41d8cd98f00b204e9800998ecf8427e".
Proof. vm_compute. reflexivity. Qed.

Example md5_abc :
  option_map MD5.hexdigest (PyStr.encode_utf8 (PyStr.lit "abc"))
  = Some (PyStr.lit "900150983cd24fb0d6963f7d28e17f72").
Proof. vm_compute. reflexivity. Qed.

Example md5_fox :
  option_map MD5.hexdigest
    (PyStr.encode_utf8 (PyStr.lit "The quick brown fox jumps over the lazy dog"))
  = Some (PyStr.lit "9e107d9d372bb6826bd81d3542a419d6").
Proof. vm_compute. reflexivity. Qed.

Example md5_two_blocks :
  MD5.hexdigest (repeat 120 120%nat)
  = PyStr.lit "fb98667f98096de92620b64f46e1c5b5".
Proof. vm_compute. reflexivity. Qed.

Example md5_56 :
  MD5.hexdigest (repeat 120 56%nat)
  = PyStr.lit "668a72d5ba17f08e62dabcafad6db14b".
Proof. vm_compute. reflexivity. Qed.

(** ** Strings *)

Section StringFacts.

Lemma startswith_app (p r : pystr) : PyStr.startswith p (p ++ r) = true.
Proof.
  induction p as [|a p IH]; simpl; [reflexivity|].
  rewrite N.eqb_refl. exact IH.
Qed.

Lemma startswith_inv (p s : pystr) :
  PyStr.startswith p s = true -> s = p ++ skipn (length p) s.
Proof.
  revert s. induction p as [|a p IH]; intros s Hs; simpl in *.
  - reflexivity.
  - destruct s as [|b s]; [discriminate|].
    apply andb_true_iff in Hs as [Hab Hs].
    apply N.eqb_eq in Hab. subst b. simpl. f_equal. now apply IH.
Qed.

Lemma startswith_false (p s r : pystr) :
  PyStr.startswith p s = false -> s <> p ++ r.
Proof.
  intros Hf ->. rewrite startswith_app in Hf. discriminate.
Qed.

Lemma utf8_char_scalar (c : N) :
  PyStr.scalar c = true -> exists b, PyStr.utf8_char c = Some b.
Proof.
  unfold PyStr.scalar, PyStr.utf8_char. intros Hc. cbv zeta.
  assert (Hz : Z.of_N c < 0xD800 \/ 0xDFFF < Z.of_N c < 0x110000).
  { apply orb_true_iff in Hc as [Hc|Hc].
    - apply N.ltb_lt in Hc. lia.
    - apply andb_true_iff in Hc as [H1 H2].
      apply N.ltb_lt in H1. apply N.ltb_lt in H2. lia. }
  repeat (match goal with
          | |- context [?a <? ?b] => destruct (Z.ltb_spec a b)
          | |- context [?a <=? ?b] => destruct (Z.leb_spec a b)
          end; simpl); eauto; lia.
Qed.

Lemma encode_utf8_scalar (s : pystr) :
  forallb PyStr.scalar s = true -> exists bs, PyStr.encode_utf8 s = Some bs.
Proof.
  induction s as [|c s IH]; simpl; intros Hs; [eauto|].
  apply andb_true_iff in Hs as [Hc Hs].
  destruct (utf8_char_scalar c Hc) as [b ->].
  destruct (IH Hs) as [bs ->]. eauto.
Qed.

End StringFacts.

Section DigestFacts.

Lemma land_255_bound (x : Z) : 0 <= Z.land x 0xFF < 256.
Proof.
  change 0xFF with (Z.ones 8). rewrite Z.land_ones by lia.
  apply Z.mod_pos_bound. reflexivity.
Qed.

Lemma hexchar_is_hex (n : Z) : 0 <= n < 16 -> is_hex (MD5.hexchar n) = true.
Proof.
  intros Hn. unfold is_hex, MD5.hexchar.
  destruct (Z.ltb_spec n 10).
  - apply orb_true_iff. left. apply andb_true_iff.
    split; apply N.leb_le; lia.
  - apply orb_true_iff. right. apply andb_true_iff.
    split; apply N.leb_le; lia.
Qed.

Lemma hexbyte_is_hex (b : Z) :
  0 <= b < 256 -> Forall (fun c => is_hex c = true) (MD5.hexbyte b).
Proof.
  intros Hb. unfold MD5.hexbyte.
  repeat constructor; apply hexchar_is_hex.
  - rewrite Z.shiftr_div_pow2 by lia. change (2 ^ 4) with 16.
    split; [apply Z.div_pos; lia | apply Z.div_lt_upper_bound; lia].
  - change 0xF with (Z.ones 4). rewrite Z.land_ones by lia.
    apply Z.mod_pos_bound. reflexivity.
Qed.

Lemma digest_bytes (bs : pybytes) :
  Forall (fun b => 0 <= b < 256) (MD5.digest bs).
Proof.
  unfold MD5.digest. cbv zeta.
  repeat (apply Forall_app; split); unfold MD5.bytes_of;
    repeat constructor; apply land_255_bound.
Qed.

Lemma digest_length (bs : pybytes) : length (MD5.digest bs) = 16%nat.
Proof. reflexivity. Qed.

Lemma hex_concat_length (l : pybytes) :
  length (concat (List.map MD5.hexbyte l)) = (2 * length l)%nat.
Proof. induction l as [|b l IH]; simpl in *; lia. Qed.

Lemma hexdigest_length (bs : pybytes) : length (MD5.hexdigest bs) = 32%nat.
Proof.
  unfold MD5.hexdigest. rewrite hex_concat_length, digest_length. reflexivity.
Qed.

Lemma hexdigest_is_hex (bs : pybytes) :
  Forall (fun c => is_hex c = true) (MD5.hexdigest bs).
Proof.
  unfold MD5.hexdigest.
  induction (digest_bytes bs) as [|b l Hb _ IH].
  - constructor.
  - change (Forall (fun c => is_hex c = true)
              (MD5.hexbyte b ++ concat (List.map MD5.hexbyte l))).
    apply Forall_app. split; [now apply hexbyte_is_hex | exact IH].
Qed.

End DigestFacts.

(** ** The identity of a message *)

(** C3.  For all [(is_group, sender, content)] the identity is a function of
    its three arguments alone: the key is the text of the boolean ([True] or
    [False]), a colon, the sender, a colon, the content; the identity is the
    MD5 hex digest of the UTF-8 bytes of the key; equal arguments give equal
    identities; every identity has 32 characters, all of them lower-case
    hexadecimal digits; and an identity exists whenever sender and content
    hold Unicode scalar values only (as every text decoded from the dump
    does). *)
Theorem C3_identity_deterministic_fixed_width
    (is_group : bool) (sender content : pystr) :
  message_key is_group sender content
  = (if is_group then PyStr.lit "True" else PyStr.lit "False")
      ++ PyStr.lit ":" ++ sender ++ PyStr.lit ":" ++ content
  /\ _compute_message_id is_group sender content
     = match PyStr.encode_utf8 (message_key is_group sender content) with
       | Some bs => Ok (MD5.hexdigest bs)
       | None => Raise UnicodeEncodeError
       end
  /\ (forall g' s' c',
        g' = is_group -> s' = sender -> c' = content ->
        _compute_message_id g' s' c'
        = _compute_message_id is_group sender content)
  /\ (forall id,
        _compute_message_id is_group sender content = Ok id ->
        length id = 32%nat /\ Forall (fun c => is_hex c = true) id)
  /\ (forallb PyStr.scalar sender = true ->
      forallb PyStr.scalar content = true ->
      exists id, _compute_message_id is_group sender content = Ok id).
Proof.
  split; [reflexivity|]. split; [reflexivity|]. split; [|split].
  - intros g' s' c' -> -> ->. reflexivity.
  - intros id. unfold _compute_message_id. cbv zeta.
    destruct (PyStr.encode_utf8 _) as [bs|]; [|discriminate].
    intros [= <-]. split; [apply hexdigest_length | apply hexdigest_is_hex].
  - intros Hs Hc. unfold _compute_message_id. cbv zeta.
    destruct (encode_utf8_scalar (message_key is_group sender content))
      as [bs ->]; [|eauto].
    unfold message_key. rewrite !forallb_app, Hs, Hc.
    destruct is_group; reflexivity.
Qed.

Lemma C3_identity_witness :
  exists id,
    _compute_message_id true direct_label (PyStr.lit "hello") = Ok id
    /\ length id = 32%nat.
Proof.
  destruct (C3_identity_deterministic_fixed_width
              true direct_label (PyStr.lit "hello"))
    as (_ & _ & _ & Hwidth & Hdef).
  destruct (Hdef eq_refl eq_refl) as [id Hid].
  exists id. split; [exact Hid | apply (Hwidth id Hid)].
Defined.

(** The two identities computed by the self-test of [message_dedup.py], as
    CPython prints them. *)
Example identity_group_hello :
  _compute_message_id true direct_label (PyStr.lit "hello")
  = Ok (PyStr.lit "0301e3c9fb049ad610bf756689ff68a2").
Proof. vm_compute. reflexivity. Qed.

Example identity_direct_world :
  _compute_message_id false direct_label (PyStr.lit "world")
  = Ok (PyStr.lit "02c389d73187d8143cf9f4a49a2555b1").
Proof. vm_compute. reflexivity. Qed.

Lemma message_key_shift (g : bool) (s c1 c2 : pystr) :
  message_key g (s ++ PyStr.lit ":" ++ c1) c2
  = message_key g s (c1 ++ PyStr.lit ":" ++ c2).
Proof. unfold message_key. now rewrite <- !app_assoc. Qed.

(** C4.  The identity is not injective on (sender, content), digest
    collisions aside: moving a colon-separated piece from the end of the
    sender to the start of the content leaves the key, hence the identity,
    unchanged.  Sender [a] with content [b:c] and sender [a:b] with content
    [c] are different messages with one key and one identity, and a poll
    cycle that sees both as direct messages and gets a success reply for
    the first sends no request for the second. *)
Theorem C4_identity_not_injective :
  (forall g s c1 c2,
      message_key g (s ++ PyStr.lit ":" ++ c1) c2
      = message_key g s (c1 ++ PyStr.lit ":" ++ c2)
      /\ _compute_message_id g (s ++ PyStr.lit ":" ++ c1) c2
         = _compute_message_id g s (c1 ++ PyStr.lit ":" ++ c2))
  /\ (forall g,
        (PyStr.lit "a", PyStr.lit "b:c") <> (PyStr.lit "a:b", PyStr.lit "c")
        /\ message_key g (PyStr.lit "a") (PyStr.lit "b:c")
           = message_key g (PyStr.lit "a:b") (PyStr.lit "c")
        /\ _compute_message_id g (PyStr.lit "a") (PyStr.lit "b:c")
           = _compute_message_id g (PyStr.lit "a:b") (PyStr.lit "c")
        /\ exists id,
             _compute_message_id g (PyStr.lit "a") (PyStr.lit "b:c") = Ok id)
  /\ (let first := Fragment (PyStr.lit "b:c") (PyStr.lit "a") in
      let second := Fragment (PyStr.lit "c") (PyStr.lit "a:b") in
      let text := plain_tag first ++ plain_tag second in
      _extract_pushcontent text = [first; second]
      /\ _parse_message first
         = Some (Message (PyStr.lit "a") (PyStr.lit "b:c") false direct_label)
      /\ _parse_message second
         = Some (Message (PyStr.lit "a:b") (PyStr.lit "c") false direct_label)
      /\ fst (poll_once always_ok (Some text) fresh) = Ok 1%nat
      /\ outbox (snd (poll_once always_ok (Some text) fresh))
         = [Attempt (Message (PyStr.lit "a") (PyStr.lit "b:c") false direct_label)
              true]).
Proof.
  split; [|split].
  - intros g s c1 c2. pose proof (message_key_shift g s c1 c2) as Hk.
    split; [exact Hk|]. unfold _compute_message_id. now rewrite Hk.
  - intros g. split; [discriminate|]. split; [reflexivity|].
    split; [reflexivity|]. destruct g; eexists; vm_compute; reflexivity.
  - vm_compute. repeat split; reflexivity.
Qed.

Section SplitFacts.
Variable sep : pystr.

Lemma find_Some (s : pystr) (i : nat) :
  PyStr.find sep s = Some i ->
  length (firstn i s) = i
  /\ first_split sep s (firstn i s) (skipn (i + length sep) s).
Proof.
  revert i. induction s as [|c s IH]; intros i; simpl.
  - destruct (PyStr.startswith sep []) eqn:Hp; [|discriminate].
    intros [= <-]. split; [reflexivity|]. split.
    + simpl. apply startswith_inv in Hp. exact Hp.
    + intros l' r' _. simpl. lia.
  - destruct (PyStr.startswith sep (c :: s)) eqn:Hp.
    + intros [= <-]. split; [reflexivity|]. split.
      * apply startswith_inv in Hp. exact Hp.
      * intros l' r' _. simpl. lia.
    + destruct (PyStr.find sep s) as [j|] eqn:Hj; [|discriminate].
      simpl. intros [= <-].
      destruct (IH j eq_refl) as (Hlen & Heq & Hmin).
      split; [simpl; now rewrite Hlen|]. split.
      * simpl. f_equal. exact Heq.
      * intros l' r' Hs. destruct l' as [|c' l'].
        { exfalso. exact (startswith_false _ _ _ Hp Hs). }
        simpl in Hs. injection Hs as -> Hs.
        specialize (Hmin _ _ Hs). simpl. rewrite Hlen in *. lia.
Qed.

Lemma find_None (s : pystr) : PyStr.find sep s = None -> absent sep s.
Proof.
  induction s as [|c s IH]; simpl.
  - destruct (PyStr.startswith sep []) eqn:Hp; [discriminate|].
    intros _ l r Hs. destruct l; simpl in Hs.
    + exact (startswith_false _ _ _ Hp Hs).
    + discriminate.
  - destruct (PyStr.startswith sep (c :: s)) eqn:Hp; [discriminate|].
    destruct (PyStr.find sep s) as [j|] eqn:Hj; [discriminate|].
    intros _ l r Hs. destruct l as [|c' l]; simpl in Hs.
    + exact (startswith_false _ _ _ Hp Hs).
    + injection Hs as -> Hs. exact (IH eq_refl _ _ Hs).
Qed.

Lemma first_split_find (s l r : pystr) :
  first_split sep s l r -> PyStr.find sep s = Some (length l).
Proof.
  intros [Heq Hmin].
  destruct (PyStr.find sep s) as [i|] eqn:Hi.
  - destruct (find_Some s i Hi) as (Hlen & Heq' & Hmin').
    specialize (Hmin _ _ Heq'). specialize (Hmin' _ _ Heq).
    rewrite Hlen in *. f_equal. lia.
  - exfalso. exact (find_None s Hi _ _ Heq).
Qed.

Lemma first_split_split1 (s l r : pystr) :
  first_split sep s l r ->
  PyStr.contains sep s = true /\ PyStr.split1 sep s = [l; r].
Proof.
  intros Hfs. pose proof (first_split_find _ _ _ Hfs) as Hfind.
  destruct Hfs as [-> _].
  unfold PyStr.contains, PyStr.split1. rewrite Hfind. split; [reflexivity|].
  f_equal.
  - rewrite firstn_app, Nat.sub_diag, firstn_all. simpl. apply app_nil_r.
  - f_equal. rewrite app_assoc, skipn_app, <- length_app.
    rewrite Nat.sub_diag, skipn_all. reflexivity.
Qed.

Lemma absent_contains (s : pystr) :
  absent sep s -> PyStr.contains sep s = false /\ PyStr.split1 sep s = [s].
Proof.
  intros Habs. unfold PyStr.contains, PyStr.split1.
  destruct (PyStr.find sep s) as [i|] eqn:Hi; [|split; reflexivity].
  exfalso. destruct (find_Some s i Hi) as (_ & Heq & _).
  exact (Habs _ _ Heq).
Qed.

End SplitFacts.

Section StripFacts.

Lemma lstrip_spec (s : pystr) :
  exists ws,
    s = ws ++ PyStr.lstrip s
    /\ forallb PyStr.isspace ws = true
    /\ forall c t, PyStr.lstrip s = c :: t -> PyStr.isspace c = false.
Proof.
  induction s as [|c s (ws & Heq & Hws & Hhd)]; simpl.
  - exists []. repeat split. discriminate.
  - destruct (PyStr.isspace c) eqn:Hc.
    + exists (c :: ws). simpl. rewrite Hc, Hws. repeat split; [|exact Hhd].
      f_equal. exact Heq.
    + exists []. repeat split. now intros c' t [= <- _].
Qed.

Lemma strip_trimmed (s : pystr) : trimmed_of s (PyStr.strip s).
Proof.
  unfold PyStr.strip, PyStr.rstrip.
  destruct (lstrip_spec s) as (ws1 & Heq1 & Hws1 & Hhd).
  destruct (lstrip_spec (rev (PyStr.lstrip s))) as (ws2 & Heq2 & Hws2 & Hlast).
  assert (Hmid : PyStr.lstrip s
                 = rev (PyStr.lstrip (rev (PyStr.lstrip s))) ++ rev ws2).
  { rewrite <- rev_app_distr, <- Heq2. symmetry. apply rev_involutive. }
  exists ws1, (rev ws2). repeat split.
  - rewrite <- Hmid. exact Heq1.
  - exact Hws1.
  - rewrite forallb_forall in *. intros x Hx. apply Hws2.
    now apply in_rev.
  - intros c t' Ht. rewrite Ht in Hmid. exact (Hhd _ _ Hmid).
  - intros c t' Ht. apply (Hlast c (rev t')).
    rewrite <- (rev_involutive (PyStr.lstrip (rev (PyStr.lstrip s)))).
    rewrite Ht, rev_app_distr. reflexivity.
Qed.

End StripFacts.

(** ** Classification *)

Section ClassifyFacts.
Variable pc : fragment.

Lemma sentinel_test :
  is_sentinel (PyStr.strip (pc_nickname pc)) ->
  bool_decide (PyStr.strip (pc_nickname pc) = group_sentinel_cn)
  || bool_decide (PyStr.strip (pc_nickname pc) = group_with_AI) = true.
Proof.
  intros [H|H]; apply orb_true_iff; [left|right]; now apply bool_decide_eq_true.
Qed.

Lemma not_sentinel_test :
  ~ is_sentinel (PyStr.strip (pc_nickname pc)) ->
  bool_decide (PyStr.strip (pc_nickname pc) = group_sentinel_cn)
  || bool_decide (PyStr.strip (pc_nickname pc) = group_with_AI) = false.
Proof.
  intros H. apply orb_false_iff.
  split; apply bool_decide_eq_false; intros E; apply H; [left|right]; exact E.
Qed.

Lemma parse_group_split (l r : pystr) :
  is_sentinel (PyStr.strip (pc_nickname pc)) ->
  first_split separator (pc_content pc) l r ->
  _parse_message pc
  = Some (Message (PyStr.strip l) (PyStr.strip r) true group_with_AI).
Proof.
  intros Hs Hfs. unfold _parse_message. cbv zeta.
  rewrite (sentinel_test Hs).
  destruct (first_split_split1 _ _ _ _ Hfs) as [-> ->]. reflexivity.
Qed.

Lemma parse_group_absent :
  is_sentinel (PyStr.strip (pc_nickname pc)) ->
  absent separator (pc_content pc) ->
  _parse_message pc
  = Some (Message unknown_sender (pc_content pc) true group_with_AI).
Proof.
  intros Hs Habs. unfold _parse_message. cbv zeta.
  rewrite (sentinel_test Hs).
  destruct (absent_contains _ _ Habs) as [-> _]. reflexivity.
Qed.

Lemma parse_direct_split (l r : pystr) :
  ~ is_sentinel (PyStr.strip (pc_nickname pc)) ->
  first_split separator (pc_content pc) l r ->
  _parse_message pc
  = Some (Message (PyStr.strip (pc_nickname pc)) (PyStr.strip r) false
            direct_label).
Proof.
  intros Hs Hfs. unfold _parse_message. cbv zeta.
  rewrite (not_sentinel_test Hs).
  destruct (first_split_split1 _ _ _ _ Hfs) as [-> ->]. reflexivity.
Qed.

Lemma parse_direct_absent :
  ~ is_sentinel (PyStr.strip (pc_nickname pc)) ->
  absent separator (pc_content pc) ->
  _parse_message pc
  = Some (Message (PyStr.strip (pc_nickname pc)) (pc_content pc) false
            direct_label).
Proof.
  intros Hs Habs. unfold _parse_message. cbv zeta.
  rewrite (not_sentinel_test Hs).
  destruct (absent_contains _ _ Habs) as [-> _]. reflexivity.
Qed.

(** Whatever the content, the flag, the label and, for a direct message,
    the sender are fixed by the nickname alone. *)
Lemma parse_shape :
  exists m,
    _parse_message pc = Some m
    /\ (is_sentinel (PyStr.strip (pc_nickname pc)) ->
        msg_is_group m = true /\ msg_chat_name m = group_with_AI)
    /\ (~ is_sentinel (PyStr.strip (pc_nickname pc)) ->
        msg_is_group m = false /\ msg_chat_name m = direct_label
        /\ msg_sender m = PyStr.strip (pc_nickname pc)).
Proof.
  unfold _parse_message. cbv zeta.
  destruct (bool_decide (PyStr.strip (pc_nickname pc) = group_sentinel_cn)
            || bool_decide (PyStr.strip (pc_nickname pc) = group_with_AI))
    eqn:Hg.
  - destruct (PyStr.contains separator (pc_content pc));
      (eexists; split; [reflexivity|]); simpl; (split; [now intros _|]);
      intros Hn; apply not_sentinel_test in Hn; congruence.
  - destruct (PyStr.contains separator (pc_content pc));
      (eexists; split; [reflexivity|]); simpl; (split; [|now intros _]);
      intros Hn; apply sentinel_test in Hn; congruence.
Qed.

End ClassifyFacts.

(** C2.  [_parse_message] returns a message for every fragment.  When the
    trimmed nickname is one of the two group sentinels the message is a
    group message with the fixed group label; if the content splits at a
    first separator into a left and a right part, the sender is the trimmed
    left part and the content the trimmed right part; if the separator is
    absent the sender is the unknown-sender sentinel and the content is the
    fragment's content unmodified.  Otherwise the message is a direct
    message with the fixed direct label and the trimmed nickname as sender;
    with a separator its content is the trimmed right part, without one it
    is the whole original content.  The two fragments of the specification
    classify as it says. *)
Theorem C2_classify_total_and_asymmetric (pc : fragment) :
  exists m,
    _parse_message pc = Some m
    /\ (PyStr.strip (pc_nickname pc) = group_sentinel_cn
        \/ PyStr.strip (pc_nickname pc) = group_with_AI ->
        msg_is_group m = true
        /\ msg_chat_name m = group_with_AI
        /\ (forall l r,
              first_split separator (pc_content pc) l r ->
              msg_sender m = PyStr.strip l /\ msg_content m = PyStr.strip r)
        /\ (absent separator (pc_content pc) ->
            msg_sender m = unknown_sender
            /\ msg_content m = pc_content pc))
    /\ (PyStr.strip (pc_nickname pc) <> group_sentinel_cn ->
        PyStr.strip (pc_nickname pc) <> group_with_AI ->
        msg_is_group m = false
        /\ msg_chat_name m = direct_label
        /\ msg_sender m = PyStr.strip (pc_nickname pc)
        /\ (forall l r,
              first_split separator (pc_content pc) l r ->
              msg_content m = PyStr.strip r)
        /\ (absent separator (pc_content pc) ->
            msg_content m = pc_content pc))
    /\ _parse_message (Fragment (PyStr.lit "Alice : hi") group_sentinel_cn)
       = Some (Message (PyStr.lit "Alice") (PyStr.lit "hi") true group_with_AI)
    /\ _parse_message (Fragment (PyStr.lit "hello") (PyStr.lit "Bob"))
       = Some (Message (PyStr.lit "Bob") (PyStr.lit "hello") false direct_label).
Proof.
  destruct (parse_shape pc) as (m & Hm & Hgroup & Hdirect).
  exists m. split; [exact Hm|]. split; [|split; [|split; reflexivity]].
  - intros Hs. destruct (Hgroup Hs) as [Hg Hl].
    split; [exact Hg|]. split; [exact Hl|]. split.
    + intros l r Hfs. rewrite (parse_group_split pc l r Hs Hfs) in Hm.
      injection Hm as <-. split; reflexivity.
    + intros Habs. rewrite (parse_group_absent pc Hs Habs) in Hm.
      injection Hm as <-. split; reflexivity.
  - intros H1 H2.
    assert (Hs : ~ is_sentinel (PyStr.strip (pc_nickname pc)))
      by (intros [H|H]; contradiction).
    destruct (Hdirect Hs) as (Hg & Hl & Hsender).
    split; [exact Hg|]. split; [exact Hl|]. split; [exact Hsender|]. split.
    + intros l r Hfs. rewrite (parse_direct_split pc l r Hs Hfs) in Hm.
      injection Hm as <-. reflexivity.
    + intros Habs. rewrite (parse_direct_absent pc Hs Habs) in Hm.
      injection Hm as <-. reflexivity.
Qed.

Lemma C2_classify_witness :
  exists m,
    _parse_message (Fragment (PyStr.lit " Alice : hi : there ")
                      (PyStr.lit " group_with_AI "))
    = Some m
    /\ msg_is_group m = true
    /\ msg_sender m = PyStr.lit "Alice"
    /\ msg_content m = PyStr.lit "hi : there".
Proof.
  destruct (C2_classify_total_and_asymmetric
              (Fragment (PyStr.lit " Alice : hi : there ")
                 (PyStr.lit " group_with_AI ")))
    as (m & Hm & Hgroup & _).
  exists m. split; [exact Hm|].
  destruct Hgroup as (Hg & _ & Hsplit & _); [right; reflexivity|].
  split; [exact Hg|].
  apply (Hsplit (PyStr.lit " Alice") (PyStr.lit "hi : there ")).
  exact (proj2 (find_Some separator (PyStr.lit " Alice : hi : there ") 6
                  eq_refl)).
Defined.

(** ** Extraction *)

Section RegexFacts.

Lemma firstn_app_sub {A} (w s : list A) :
  firstn (length (w ++ s) - length s) (w ++ s) = w.
Proof.
  rewrite length_app, Nat.add_sub, firstn_app, Nat.sub_diag, firstn_all.
  simpl. apply app_nil_r.
Qed.

Lemma star_sound {X} (p : N -> bool) (s : pystr) (k : pystr -> option X) r :
  Re.star p s k = Some r ->
  exists w s', s = w ++ s' /\ forallb p w = true /\ k s' = Some r.
Proof.
  induction s as [|c s IH]; simpl.
  - intros Hk. exists [], []. auto.
  - destruct (p c) eqn:Hc.
    + destruct (Re.star p s k) as [r'|] eqn:Hs.
      * intros [= ->]. destruct (IH eq_refl) as (w & s' & -> & Hw & Hk).
        exists (c :: w), s'. simpl. rewrite Hc, Hw. auto.
      * intros Hk. exists [], (c :: s). auto.
    + intros Hk. exists [], (c :: s). auto.
Qed.

Lemma star_greedy {X} (p : N -> bool) (w s : pystr) (k : pystr -> option X) r :
  forallb p w = true ->
  head_in p s = false ->
  k s = Some r ->
  Re.star p (w ++ s) k = Some r.
Proof.
  intros Hw Hhd Hk. induction w as [|c w IH]; simpl in *.
  - destruct s as [|x s']; simpl in *; [exact Hk|]. now rewrite Hhd.
  - apply andb_true_iff in Hw as [-> Hw]. now rewrite (IH Hw).
Qed.

(** A successful match consumed a prefix that the pattern matches. *)
Lemma rmatch_sound {X} (r : Re.regex) :
  forall (s : pystr) (g : list pystr)
         (k : pystr -> list pystr -> option X) res,
    Re.rmatch r s g k = Some res ->
    exists w s' caps,
      s = w ++ s' /\ lang r w caps /\ k s' (g ++ caps) = Some res.
Proof.
  induction r as [|l|c|c|c|r IH|r1 IH1 r2 IH2]; intros s g k res; simpl.
  - intros Hk. exists [], s, []. rewrite app_nil_r. auto using lang_eps.
  - destruct (PyStr.startswith l s) eqn:Hl; [|discriminate]. intros Hk.
    exists l, (skipn (length l) s), []. rewrite app_nil_r.
    split; [now apply startswith_inv|]. auto using lang_lit.
  - destruct s as [|x s]; [discriminate|].
    destruct (Re.in_class c x) eqn:Hx; [|discriminate]. intros Hk.
    exists [x], s, []. rewrite app_nil_r. auto using lang_class.
  - intros Hs. apply star_sound in Hs as (w & s' & -> & Hw & Hk).
    exists w, s', []. rewrite app_nil_r. auto using lang_star.
  - destruct s as [|x s]; [discriminate|].
    destruct (Re.in_class c x) eqn:Hx; [|discriminate]. intros Hs.
    apply star_sound in Hs as (w & s' & -> & Hw & Hk).
    exists (x :: w), s', []. rewrite app_nil_r. split; [reflexivity|].
    split; [|exact Hk]. apply lang_plus; [discriminate|].
    simpl. now rewrite Hx, Hw.
  - intros Hr. apply IH in Hr as (w & s' & caps & -> & Hw & Hk).
    rewrite firstn_app_sub, <- app_assoc in Hk.
    exists w, s', (caps ++ [w]). auto using lang_group.
  - intros Hr. apply IH1 in Hr as (w1 & s1 & c1 & -> & Hw1 & Hr).
    apply IH2 in Hr as (w2 & s2 & c2 & -> & Hw2 & Hk).
    exists (w1 ++ w2), s2, (c1 ++ c2).
    rewrite <- !app_assoc. rewrite <- app_assoc in Hk.
    auto using lang_seq.
Qed.

Lemma match_at_sound (r : Re.regex) (s : pystr) g rest :
  Re.match_at r s = Some (g, rest) ->
  exists w, s = w ++ rest /\ lang r w g.
Proof.
  unfold Re.match_at. intros Hm.
  apply rmatch_sound in Hm as (w & s' & caps & -> & Hw & [= <- <-]).
  exists w. auto.
Qed.

End RegexFacts.

Section TagFacts.

(** The words of the pattern are the well-formed tags. *)
Lemma pattern_lang (w : pystr) (g : list pystr) :
  lang pushcontent_pattern w g ->
  exists f, tag_text w f /\ g = [pc_content f; pc_nickname f].
Proof.
  unfold pushcontent_pattern, Re.cat. simpl fold_right. intros H.
  lang_inv.
  repeat match goal with
         | H : Re.in_class (Re.CChar _) ?x = true |- _ =>
             apply N.eqb_eq in H; subst x
         end.
  match goal with
  | |- context [?a ++ ?ws1 ++ ?b ++ [dquote] ++ ?c ++ [dquote] ++ ?ws2
                  ++ ?d ++ [dquote] ++ ?n ++ [dquote] ++ ?ws3 ++ ?e ++ []] =>
      exists (Fragment c n); split;
      [ pose proof (tag_text_intro ws1 ws2 ws3 (Fragment c n)) as Ht;
        unfold render_tag in Ht; simpl pc_content in Ht;
        simpl pc_nickname in Ht
      | reflexivity ]
  end.
  simpl app in *. apply Ht; assumption.
Qed.

Section Steps.
Context {X : Type}.
Variables (r2 : Re.regex) (g : list pystr)
          (k : pystr -> list pystr -> option X).

Lemma seq_lit (l s : pystr) :
  Re.rmatch (Re.RSeq (Re.RLit l) r2) (l ++ s) g k = Re.rmatch r2 s g k.
Proof.
  simpl. rewrite startswith_app, skipn_app, Nat.sub_diag, skipn_all.
  reflexivity.
Qed.

Lemma seq_class (c : Re.cclass) (x : N) (s : pystr) :
  Re.in_class c x = true ->
  Re.rmatch (Re.RSeq (Re.RClass c) r2) ([x] ++ s) g k = Re.rmatch r2 s g k.
Proof. simpl. now intros ->. Qed.

Lemma seq_star (c : Re.cclass) (w s : pystr) res :
  forallb (Re.in_class c) w = true ->
  head_in (Re.in_class c) s = false ->
  Re.rmatch r2 s g k = Some res ->
  Re.rmatch (Re.RSeq (Re.RStar c) r2) (w ++ s) g k = Some res.
Proof. intros Hw Hhd Hk. simpl. now apply star_greedy. Qed.

Lemma seq_plus (c : Re.cclass) (w s : pystr) res :
  w <> [] ->
  forallb (Re.in_class c) w = true ->
  head_in (Re.in_class c) s = false ->
  Re.rmatch r2 s g k = Some res ->
  Re.rmatch (Re.RSeq (Re.RPlus c) r2) (w ++ s) g k = Some res.
Proof.
  intros Hne Hw Hhd Hk. destruct w as [|x w]; [contradiction|].
  simpl in *. apply andb_true_iff in Hw as [-> Hw]. now apply star_greedy.
Qed.

Lemma seq_group_star (c : Re.cclass) (w s : pystr) res :
  forallb (Re.in_class c) w = true ->
  head_in (Re.in_class c) s = false ->
  Re.rmatch r2 s (g ++ [w]) k = Some res ->
  Re.rmatch (Re.RSeq (Re.RGroup (Re.RStar c)) r2) (w ++ s) g k = Some res.
Proof.
  intros Hw Hhd Hk. simpl. apply star_greedy; [exact Hw | exact Hhd |].
  now rewrite firstn_app_sub.
Qed.

End Steps.

Lemma quote_free_class (s : pystr) :
  quote_free s -> forallb (Re.in_class (Re.CNot dquote)) s = true.
Proof. exact id. Qed.

(** At the start of a well-formed tag the pattern matches exactly the tag. *)
Lemma tag_match (t : pystr) (f : fragment) (rest : pystr) :
  tag_text t f ->
  Re.match_at pushcontent_pattern (t ++ rest)
  = Some ([pc_content f; pc_nickname f], rest).
Proof.
  intros [ws1 ws2 ws3 [c n] Hne1 Hws1 Hne2 Hws2 Hws3 Hc Hn].
  simpl in Hc, Hn. apply quote_free_class in Hc, Hn.
  unfold Re.match_at, pushcontent_pattern, Re.cat, render_tag.
  simpl fold_right. simpl pc_content. simpl pc_nickname.
  rewrite <- !app_assoc.
  rewrite seq_lit.
  apply seq_plus; [exact Hne1 | exact Hws1 | reflexivity |].
  rewrite seq_lit, seq_class by reflexivity.
  apply seq_group_star; [exact Hc | reflexivity |].
  rewrite seq_class by reflexivity.
  apply seq_plus; [exact Hne2 | exact Hws2 | reflexivity |].
  rewrite seq_lit, seq_class by reflexivity.
  apply seq_group_star; [exact Hn | reflexivity |].
  rewrite seq_class by reflexivity.
  apply seq_star; [exact Hws3 | reflexivity |].
  rewrite seq_lit. reflexivity.
Qed.

End TagFacts.

Section FindallFacts.
Variable r : Re.regex.

Lemma findall_skip (n : nat) (s : pystr) :
  Re.findall_from r n s = Re.findall_from r 0 (skipn n s).
Proof.
  revert n. induction s as [|c s IH]; intros [|n]; simpl; try reflexivity.
  apply IH.
Qed.

Lemma findall_hit (w rest : pystr) (g : list pystr) :
  w <> [] ->
  Re.match_at r (w ++ rest) = Some (g, rest) ->
  Re.findall r (w ++ rest) = g :: Re.findall r rest.
Proof.
  intros Hne Hm. destruct w as [|c w]; [contradiction|].
  unfold Re.findall. simpl app in *. simpl Re.findall_from. rewrite Hm.
  f_equal. rewrite findall_skip. f_equal.
  simpl length. rewrite length_app.
  replace (S (length w + length rest) - length rest - 1)%nat
    with (length w) by lia.
  rewrite skipn_app, Nat.sub_diag, skipn_all. reflexivity.
Qed.

Lemma findall_miss (c : N) (s : pystr) :
  Re.match_at r (c :: s) = None ->
  Re.findall r (c :: s) = Re.findall r s.
Proof. unfold Re.findall. simpl. now intros ->. Qed.

End FindallFacts.

Section ScanFacts.

Lemma tag_text_nonempty (t : pystr) (f : fragment) : tag_text t f -> t <> [].
Proof. intros [ws1 ws2 ws3 f' _ _ _ _ _ _ _]. discriminate. Qed.

Lemma fragment_of_pair (f : fragment) :
  fragment_of_groups [pc_content f; pc_nickname f] = f.
Proof. now destruct f. Qed.

Lemma extract_tag (t : pystr) (f : fragment) (rest : pystr) :
  tag_text t f ->
  _extract_pushcontent (t ++ rest) = f :: _extract_pushcontent rest.
Proof.
  intros Ht. unfold _extract_pushcontent.
  rewrite (findall_hit _ t rest _ (tag_text_nonempty _ _ Ht)
             (tag_match t f rest Ht)).
  simpl. now rewrite fragment_of_pair.
Qed.

Lemma no_match_iff (s : pystr) :
  Re.match_at pushcontent_pattern s = None <-> ~ tag_starts s.
Proof.
  split.
  - intros Hm (t & f & rest & Ht & ->).
    rewrite (tag_match t f rest Ht) in Hm. discriminate.
  - intros Hn. destruct (Re.match_at pushcontent_pattern s) as [[g rest]|] eqn:Hm;
      [|reflexivity].
    exfalso. apply Hn.
    apply match_at_sound in Hm as (w & -> & Hw).
    apply pattern_lang in Hw as (f & Ht & _).
    exists w, f, rest. auto.
Qed.

Lemma extract_skip (c : N) (s : pystr) :
  ~ tag_starts (c :: s) ->
  _extract_pushcontent (c :: s) = _extract_pushcontent s.
Proof.
  intros Hn. unfold _extract_pushcontent.
  now rewrite findall_miss by now apply no_match_iff.
Qed.

Lemma scan_extract (s : pystr) (fs : list fragment) :
  scan s fs -> _extract_pushcontent s = fs.
Proof.
  induction 1 as [|t f rest fs Ht _ IH|c s fs Hn _ IH].
  - reflexivity.
  - rewrite (extract_tag t f rest Ht). now f_equal.
  - now rewrite (extract_skip c s Hn).
Qed.

Lemma extract_scan (s : pystr) : scan s (_extract_pushcontent s).
Proof.
  remember (length s) as n eqn:Hn. revert s Hn.
  induction n as [n IH] using lt_wf_ind. intros s ->.
  destruct s as [|c s]; [constructor|].
  destruct (Re.match_at pushcontent_pattern (c :: s)) as [[g rest]|] eqn:Hm.
  - pose proof Hm as Hm'.
    apply match_at_sound in Hm' as (w & Heq & Hw).
    apply pattern_lang in Hw as (f & Ht & ->).
    rewrite Heq, (extract_tag w f rest Ht).
    apply scan_tag; [exact Ht|].
    apply (IH (length rest)); [|reflexivity].
    rewrite Heq, length_app.
    pose proof (tag_text_nonempty _ _ Ht). destruct w; [contradiction|].
    simpl. lia.
  - apply no_match_iff in Hm. rewrite (extract_skip c s Hm).
    apply scan_skip; [exact Hm|].
    apply (IH (length s)); [simpl; lia | reflexivity].
Qed.

Lemma extract_gap (gap s : pystr) :
  no_tag_within (length gap) (gap ++ s) ->
  _extract_pushcontent (gap ++ s) = _extract_pushcontent s.
Proof.
  induction gap as [|c gap IH]; intros Hgap; [reflexivity|].
  simpl app. rewrite extract_skip.
  - apply IH. intros i Hi. apply (Hgap (S i)). simpl. lia.
  - apply (Hgap 0%nat). simpl. lia.
Qed.

End ScanFacts.

(** C6.  [_extract_pushcontent] is total; on the empty text it returns the
    empty list; its result is the left-to-right scan of the text for
    well-formed tags, and the only one ([scan] determines it); a text in
    which no well-formed tag starts yields nothing; a stretch of text in
    which no well-formed tag starts contributes no fragment to what
    follows it; a tag that occurs twice is reported twice; three
    well-formed tags with such stretches between and around them yield
    exactly their three fragments in source order, as does the concrete
    text with a tag that lacks its nickname placed after the first tag; and
    the extractor of [MMKVReader] is the same function. *)
Theorem C6_extract_in_order_skipping_malformed :
  _extract_pushcontent [] = []
  /\ (forall text, scan text (_extract_pushcontent text))
  /\ (forall text fs, scan text fs -> _extract_pushcontent text = fs)
  /\ (forall text,
        no_tag_within (length text) text -> _extract_pushcontent text = [])
  /\ (forall gap t f rest,
        tag_text t f ->
        no_tag_within (length gap) (gap ++ t ++ rest) ->
        _extract_pushcontent (gap ++ t ++ rest)
        = f :: _extract_pushcontent rest)
  /\ (forall t f, tag_text t f -> _extract_pushcontent (t ++ t) = [f; f])
  /\ (forall g0 g1 g2 g3 t1 t2 t3 f1 f2 f3,
        tag_text t1 f1 -> tag_text t2 f2 -> tag_text t3 f3 ->
        no_tag_within (length g0) (g0 ++ t1 ++ g1 ++ t2 ++ g2 ++ t3 ++ g3) ->
        no_tag_within (length g1) (g1 ++ t2 ++ g2 ++ t3 ++ g3) ->
        no_tag_within (length g2) (g2 ++ t3 ++ g3) ->
        no_tag_within (length g3) g3 ->
        _extract_pushcontent (g0 ++ t1 ++ g1 ++ t2 ++ g2 ++ t3 ++ g3)
        = [f1; f2; f3])
  /\ _extract_pushcontent
       (plain_tag alice ++ malformed_tag
          ++ render_tag (PyStr.lit "  ") [10%N; 32%N] [32%N] bob
          ++ plain_tag carol)
     = [alice; bob; carol]
  /\ (forall text,
        MMKVReader.extract_pushcontent text = _extract_pushcontent text).
Proof.
  assert (Hnone : forall text,
             no_tag_within (length text) text -> _extract_pushcontent text = []).
  { intros text Hno. pose proof (extract_gap text []) as Hg.
    rewrite app_nil_r in Hg. exact (Hg Hno). }
  assert (Hgap : forall gap t f rest,
             tag_text t f ->
             no_tag_within (length gap) (gap ++ t ++ rest) ->
             _extract_pushcontent (gap ++ t ++ rest)
             = f :: _extract_pushcontent rest).
  { intros gap t f rest Ht Hno.
    now rewrite (extract_gap gap _ Hno), (extract_tag t f rest Ht). }
  repeat apply conj.
  - reflexivity.
  - exact extract_scan.
  - exact scan_extract.
  - exact Hnone.
  - exact Hgap.
  - intros t f Ht. rewrite (extract_tag t f t Ht).
    rewrite <- (app_nil_r t) at 1. now rewrite (extract_tag t f [] Ht).
  - intros g0 g1 g2 g3 t1 t2 t3 f1 f2 f3 H1 H2 H3 N0 N1 N2 N3.
    rewrite (Hgap g0 t1 f1 _ H1 N0), (Hgap g1 t2 f2 _ H2 N1),
      (Hgap g2 t3 f3 _ H3 N2), (Hnone g3 N3). reflexivity.
  - vm_compute. reflexivity.
  - reflexivity.
Qed.

Lemma C6_extract_witness :
  _extract_pushcontent (PyStr.lit "<p" ++ plain_tag bob ++ PyStr.lit "tail")
  = bob :: _extract_pushcontent (PyStr.lit "tail").
Proof.
  destruct C6_extract_in_order_skipping_malformed
    as (_ & _ & _ & _ & Hgap & _).
  apply (Hgap (PyStr.lit "<p") (plain_tag bob) bob (PyStr.lit "tail")).
  - apply (tag_text_intro [32%N] [32%N] [] bob); try discriminate; reflexivity.
  - intros i Hi. apply no_match_iff.
    destruct i as [|[|i]]; [vm_compute; reflexivity ..|].
    simpl in Hi. lia.
Defined.

(** ** The dedup store *)

Section StoreFacts.

Lemma set_of_list_strs (l : list pystr) :
  set_of_list (List.map JStr l) = Ok (list_to_set l).
Proof.
  induction l as [|s l IH]; simpl; [reflexivity|]. now rewrite IH.
Qed.

Lemma load_document (ids : gset pystr) (now : pystr) :
  load_body (Bytes (Some (document ids now))) = Ok ids.
Proof.
  unfold load_body, document.
  change (dict_get _ (PyStr.lit "processed_ids") (JArr []))
    with (JArr (List.map JStr (elements ids))).
  simpl set_of. rewrite set_of_list_strs.
  f_equal. apply list_to_set_elements_L.
Qed.

Lemma init_document (ids : gset pystr) (now : pystr) :
  __init__ (Bytes (Some (document ids now))) = Store ids.
Proof.
  unfold __init__, _load. simpl path_exists. now rewrite load_document.
Qed.

Lemma persisted_document (ids : gset pystr) (now : pystr) :
  persisted_ids (Bytes (Some (document ids now))) = Some (elements ids).
Proof.
  unfold persisted_ids, document.
  change (dict_get _ (PyStr.lit "processed_ids") JNull)
    with (JArr (List.map JStr (elements ids))).
  f_equal. induction (elements ids) as [|x l IH]; [reflexivity|].
  cbn. f_equal. exact IH.
Qed.

Lemma save_body_ok (self : store) (now : pystr) (io : save_io) (d : disk) :
  save_succeeds self io ->
  save_body self now io d
  = (Ok tt, Bytes (Some (document (_processed_ids self) now))).
Proof.
  intros (Hdir & Hopen & Hwrite & Henc). unfold save_body.
  rewrite Hdir, Hopen, Hwrite. simpl.
  replace (forallb encodable (elements (_processed_ids self))) with true;
    [reflexivity|].
  symmetry. apply forallb_forall. intros x Hx. apply Henc.
  apply elem_of_elements, list_elem_of_In, Hx.
Qed.

Lemma mark_all_ids marks (self : store) (d : disk) :
  _processed_ids (fst (mark_all marks self d))
  = list_to_set (marked marks) ∪ _processed_ids self.
Proof.
  revert self d. induction marks as [|[[id now] io] marks IH]; intros self d.
  - simpl. now rewrite union_empty_l_L.
  - simpl. rewrite IH. simpl.
    rewrite (assoc_L (∪)). f_equal. apply union_comm_L.
Qed.

Lemma is_processed_iff (self : store) (x : pystr) :
  is_processed self x = true <-> x ∈ _processed_ids self.
Proof. unfold is_processed. apply bool_decide_eq_true. Qed.

Lemma occurrences_notin (id : pystr) (l : list pystr) :
  id ∉ l -> occurrences id l = 0%nat.
Proof.
  unfold occurrences. induction l as [|x l IH]; intros Hn; [reflexivity|].
  apply not_elem_of_cons in Hn as [Hne Hn]. simpl.
  rewrite bool_decide_eq_false_2 by congruence. now apply IH.
Qed.

Lemma occurrences_NoDup (id : pystr) (l : list pystr) :
  NoDup l -> id ∈ l -> occurrences id l = 1%nat.
Proof.
  induction 1 as [|x l Hx Hl IH]; intros Hin; [inversion Hin|].
  unfold occurrences in *. simpl.
  destruct (decide (x = id)) as [->|Hne].
  - rewrite bool_decide_eq_true_2 by reflexivity. simpl. f_equal.
    now apply occurrences_notin.
  - rewrite bool_decide_eq_false_2 by exact Hne.
    apply IH. apply elem_of_cons in Hin as [->|Hin]; [congruence|exact Hin].
Qed.

End StoreFacts.

(** C7.  Mark any identities, the last of them [id]; if the save of that
    last call goes through, a new instance built from the same file is the
    instance that was saved: it knows exactly the identities marked (with
    those the first instance started from) and no other. *)
Theorem C7_round_trip_through_storage
    (self : store) (d : disk) (marks : list (pystr * pystr * save_io))
    (id now : pystr) (io : save_io) (s1 s2 : store) (d1 d2 : disk) :
  mark_all marks self d = (s1, d1) ->
  mark_processed s1 id now io d1 = (s2, d2) ->
  save_succeeds s2 io ->
  __init__ d2 = s2
  /\ forall x,
       is_processed (__init__ d2) x = true
       <-> x ∈ _processed_ids self \/ x ∈ marked marks \/ x = id.
Proof.
  intros Hall Hmark Hsave.
  unfold mark_processed in Hmark. cbv zeta in Hmark.
  injection Hmark as <- <-.
  unfold _save. rewrite (save_body_ok _ now io d1 Hsave). simpl snd.
  rewrite init_document. split; [reflexivity|].
  intros x. rewrite is_processed_iff. simpl.
  pose proof (mark_all_ids marks self d) as Hids. rewrite Hall in Hids.
  simpl in Hids. rewrite Hids.
  rewrite !elem_of_union, elem_of_singleton, elem_of_list_to_set. tauto.
Qed.

Lemma C7_round_trip_witness :
  let a := PyStr.lit "0301e3c9fb049ad610bf756689ff68a2" in
  let b := PyStr.lit "02c389d73187d8143cf9f4a49a2555b1" in
  let t := PyStr.lit "2026-02-18T20:55:49" in
  let s1 := fst (mark_all [(a, t, io_ok)] (__init__ NoFile) NoFile) in
  let d1 := snd (mark_all [(a, t, io_ok)] (__init__ NoFile) NoFile) in
  let d2 := snd (mark_processed s1 b t io_ok d1) in
  is_processed (__init__ d2) a = true
  /\ is_processed (__init__ d2) b = true
  /\ is_processed (__init__ d2) t = false.
Proof.
  intros a b t s1 d1 d2.
  destruct (C7_round_trip_through_storage
              (__init__ NoFile) NoFile [(a, t, io_ok)] b t io_ok
              s1 (fst (mark_processed s1 b t io_ok d1)) d1 d2)
    as [_ Hknown].
  - reflexivity.
  - reflexivity.
  - repeat split. intros x Hx.
    change (x ∈ ({[ b ]} ∪ ({[ a ]} ∪ (∅ : gset pystr)))) in Hx.
    rewrite !elem_of_union, !elem_of_singleton in Hx.
    destruct Hx as [->|[->|Hx]]; [reflexivity | reflexivity |].
    now apply not_elem_of_empty in Hx.
  - split; [|split].
    + apply Hknown. right. left. apply list_elem_of_here.
    + apply Hknown. right. right. reflexivity.
    + destruct (is_processed (__init__ d2) t) eqn:Ht; [|reflexivity].
      apply Hknown in Ht as [Ht|[Ht|Ht]].
      * now apply not_elem_of_empty in Ht.
      * apply list_elem_of_singleton in Ht. discriminate.
      * discriminate.
Defined.

(** C8.  Marking [id] a second time: [id] is known, the instance is the one
    a single call leaves, and when the second save goes through the
    persisted [processed_ids] holds the members of the set, each once, [id]
    among them exactly once; when both saves go through the two persisted
    lists are equal (the files differ in [last_update] at most). *)
Theorem C8_mark_is_idempotent
    (self : store) (id now1 now2 : pystr) (io1 io2 : save_io) (d : disk) :
  let once := mark_processed self id now1 io1 d in
  let twice := mark_processed (fst once) id now2 io2 (snd once) in
  is_processed (fst once) id = true
  /\ is_processed (fst twice) id = true
  /\ fst twice = fst once
  /\ (save_succeeds (fst twice) io2 ->
      exists l,
        persisted_ids (snd twice) = Some l
        /\ NoDup l
        /\ occurrences id l = 1%nat
        /\ forall x, x ∈ l <-> x ∈ _processed_ids (fst once))
  /\ (save_succeeds (fst once) io1 -> save_succeeds (fst twice) io2 ->
      persisted_ids (snd twice) = persisted_ids (snd once)).
Proof.
  intros once twice.
  assert (Hsame : fst twice = fst once).
  { unfold twice, once, mark_processed. simpl. f_equal.
    rewrite (assoc_L (∪)). f_equal. apply union_idemp_L. }
  assert (Hin : id ∈ _processed_ids (fst once)).
  { unfold once, mark_processed. simpl.
    apply elem_of_union_l, elem_of_singleton. reflexivity. }
  assert (Hfile : forall now io d', save_succeeds (fst once) io ->
            persisted_ids (_save (fst once) now io d')
            = Some (elements (_processed_ids (fst once)))).
  { intros now io d' Hs. unfold _save. rewrite (save_body_ok _ now io d' Hs).
    apply persisted_document. }
  assert (Hsnd1 : snd once = _save (fst once) now1 io1 d) by reflexivity.
  assert (Hsnd2 : snd twice = _save (fst twice) now2 io2 (snd once))
    by reflexivity.
  split; [now apply is_processed_iff|].
  split; [rewrite Hsame; now apply is_processed_iff|].
  split; [exact Hsame|]. split.
  - intros Hs. rewrite Hsame in Hs.
    exists (elements (_processed_ids (fst once))).
    split; [|split; [apply NoDup_elements|split]].
    + rewrite Hsnd2, Hsame. now apply Hfile.
    + apply occurrences_NoDup; [apply NoDup_elements|].
      now apply elem_of_elements.
    + intros x. apply elem_of_elements.
  - intros Hs1 Hs2. rewrite Hsame in Hs2.
    transitivity (Some (elements (_processed_ids (fst once)))).
    + rewrite Hsnd2, Hsame. now apply Hfile.
    + symmetry. rewrite Hsnd1. now apply Hfile.
Qed.

Lemma C8_mark_witness :
  let a := PyStr.lit "0301e3c9fb049ad610bf756689ff68a2" in
  let t := PyStr.lit "2026-02-18T20:55:49" in
  let once := mark_processed (Store ∅) a t io_ok NoFile in
  let twice := mark_processed (fst once) a t io_ok (snd once) in
  persisted_ids (snd twice) = persisted_ids (snd once)
  /\ persisted_ids (snd twice) = Some [a].
Proof.
  intros a t once twice.
  destruct (C8_mark_is_idempotent (Store ∅) a t t io_ok io_ok NoFile)
    as (_ & _ & _ & _ & Hfiles).
  split.
  - apply Hfiles; repeat split; intros x Hx;
      change (x ∈ ({[ a ]} ∪ (∅ : gset pystr))) in Hx
      || change (x ∈ ({[ a ]} ∪ ({[ a ]} ∪ (∅ : gset pystr)))) in Hx;
      rewrite ?elem_of_union, ?elem_of_singleton in Hx;
      destruct Hx as [->|Hx]; try reflexivity;
      try (destruct Hx as [->|Hx]; [reflexivity|]);
      now apply not_elem_of_empty in Hx.
  - vm_compute. reflexivity.
Defined.

(** C9.  Building an instance never fails.  When the file is there and
    loads, the instance holds what the file lists.  When the file is
    missing, or loading it raises (it cannot be opened, it is not a JSON
    document, the document is not an object, its [processed_ids] cannot be
    made a set), the instance is empty: no identity is known. *)
Theorem C9_load_failure_gives_empty_store (d : disk) :
  (forall ids,
      path_exists d = true -> load_body d = Ok ids -> __init__ d = Store ids)
  /\ (path_exists d = false \/ (exists e, load_body d = Raise e) ->
      __init__ d = Store ∅
      /\ forall id, is_processed (__init__ d) id = false)
  /\ __init__ NoFile = Store ∅
  /\ __init__ Locked = Store ∅
  /\ __init__ (Bytes None) = Store ∅
  /\ (forall j, (forall kv, j <> JObj kv) -> __init__ (Bytes (Some j)) = Store ∅)
  /\ (forall kv j,
        dict_get kv (PyStr.lit "processed_ids") (JArr []) = j ->
        (exists e, set_of j = Raise e) ->
        __init__ (Bytes (Some (JObj kv))) = Store ∅).
Proof.
  split; [|split; [|repeat split]].
  - intros ids He Hl. unfold __init__, _load. now rewrite He, Hl.
  - intros Hfail.
    assert (Hempty : __init__ d = Store ∅).
    { unfold __init__, _load. destruct Hfail as [->|[e ->]]; [reflexivity|].
      now destruct (path_exists d). }
    split; [exact Hempty|]. intros id. rewrite Hempty.
    unfold is_processed. apply bool_decide_eq_false. apply not_elem_of_empty.
  - intros j Hj. unfold __init__, _load. simpl.
    destruct j; try reflexivity. now destruct (Hj kv).
  - intros kv j Hget [e He]. unfold __init__, _load. simpl.
    now rewrite Hget, He.
Qed.

Lemma C9_load_failure_witness :
  let d := Bytes (Some (JObj [(PyStr.lit "processed_ids",
                               JNum (PyStr.lit "5"))])) in
  load_body d = Raise TypeError
  /\ __init__ d = Store ∅
  /\ is_processed (__init__ d) (PyStr.lit "0301e3c9fb049ad610bf756689ff68a2")
     = false.
Proof.
  intros d.
  destruct (C9_load_failure_gives_empty_store d) as (_ & Hfail & _).
  assert (Hraise : load_body d = Raise TypeError) by reflexivity.
  destruct Hfail as [Hempty Hknown]; [right; eauto|].
  split; [exact Hraise|]. split; [exact Hempty | apply Hknown].
Defined.

(** ** Change detection in the reader *)

Section ReaderFacts.
Import MMKVReader.

Lemma has_new_content_state (stat : option file_stat) (self : reader) :
  snd (has_new_content stat self)
  = match stat with
    | None => self
    | Some st => Reader (Some (mtime st)) (size st)
    end.
Proof.
  unfold has_new_content. destruct stat as [st|]; [|reflexivity].
  now destruct (_last_mtime self).
Qed.

Lemma calls_state (stats : list (option file_stat)) (self : reader) :
  snd (calls stats self)
  = match last_observed stats with
    | None => self
    | Some st => Reader (Some (mtime st)) (size st)
    end.
Proof.
  revert self. induction stats as [|stat stats IH]; intros self.
  - reflexivity.
  - simpl calls.
    destruct (has_new_content stat self) as [b self'] eqn:Hstep.
    specialize (IH self'). destruct (calls stats self') as [bs self''].
    simpl in *. rewrite IH.
    pose proof (has_new_content_state stat self) as Hst.
    rewrite Hstep in Hst. simpl in Hst. subst self'.
    unfold last_observed. destruct stat as [st|]; simpl; [|reflexivity].
    rewrite last_cons.
    change (list_omap _ _ id stats) with (omap id stats).
    now destruct (last (omap id stats)).
Qed.

Lemma changed_iff (st prev : file_stat) :
  negb (mtime st =? mtime prev) || negb (size st =? size prev) = true
  <-> mtime st <> mtime prev \/ size st <> size prev.
Proof.
  rewrite orb_true_iff, !negb_true_iff, !Z.eqb_neq. reflexivity.
Qed.

End ReaderFacts.

(** C10, as the code has it.  After any sequence of calls on a new reader:
    a call whose [stat] fails reports false and leaves the reader as it
    was; a call whose [stat] succeeds reports true when no earlier [stat]
    has succeeded, and otherwise reports true exactly when the modification
    time or the size differs from the last observed ones. *)
Theorem C10_has_new_content_against_last_observed
    (stats : list (option MMKVReader.file_stat))
    (stat : option MMKVReader.file_stat) :
  let self := snd (MMKVReader.calls stats MMKVReader.__init__) in
  let answer := fst (MMKVReader.has_new_content stat self) in
  (stat = None ->
   answer = false /\ snd (MMKVReader.has_new_content stat self) = self)
  /\ (forall st,
        stat = Some st -> MMKVReader.last_observed stats = None ->
        answer = true)
  /\ (forall st prev,
        stat = Some st -> MMKVReader.last_observed stats = Some prev ->
        (answer = true
         <-> MMKVReader.mtime st <> MMKVReader.mtime prev
             \/ MMKVReader.size st <> MMKVReader.size prev)).
Proof.
  intros self answer. subst answer.
  pose proof (calls_state stats MMKVReader.__init__) as Hself.
  fold self in Hself.
  split; [|split].
  - intros ->. split; reflexivity.
  - intros st -> Hnone. rewrite Hnone in Hself. rewrite Hself. reflexivity.
  - intros st prev -> Hprev. rewrite Hprev in Hself. rewrite Hself.
    simpl. apply changed_iff.
Qed.

Lemma C10_has_new_content_witness :
  let seen := MMKVReader.FileStat 1771419349 131072 in
  let grown := MMKVReader.FileStat 1771419349 131080 in
  fst (MMKVReader.calls [None; Some seen; None; Some seen; Some grown]
         MMKVReader.__init__)
  = [false; true; false; false; true]
  /\ fst (MMKVReader.has_new_content (Some grown)
            (snd (MMKVReader.calls [None; Some seen; None] MMKVReader.__init__)))
     = true.
Proof.
  intros seen grown. split; [reflexivity|].
  destruct (C10_has_new_content_against_last_observed
              [None; Some seen; None] (Some grown)) as (_ & _ & Hchanged).
  apply (Hchanged grown seen); [reflexivity | reflexivity |].
  right. discriminate.
Defined.

(** The first call of a new reader reports false when [stat] fails. *)
Lemma C10_first_call_reports_false_without_stat :
  MMKVReader.has_new_content None MMKVReader.__init__
  = (false, MMKVReader.__init__)
  /\ fst (MMKVReader.calls [None] MMKVReader.__init__) = [false].
Proof. split; reflexivity. Qed.

(** ** The poll cycle *)

Section RunFacts.
Variable env : oracle.

Lemma settled_app (T1 T2 : list attempt) :
  settled (T1 ++ T2)
  <-> settled T1 /\ settled T2
      /\ forall a b, a ∈ T1 -> a_ok a = true -> b ∈ T2 ->
                     attempt_id b <> attempt_id a.
Proof.
  induction T1 as [|a T1 IH]; simpl.
  - split; [intros H; repeat split; [exact H|] | tauto].
    intros a b Ha. inversion Ha.
  - rewrite IH. split.
    + intros (Ha & H1 & H2 & Hx). repeat split; try assumption.
      * intros Hok b Hb. apply Ha; [exact Hok|].
        apply elem_of_app. now left.
      * intros a' b Ha' Hok Hb. apply elem_of_cons in Ha' as [->|Ha'].
        -- apply Ha; [exact Hok|]. apply elem_of_app. now right.
        -- now apply (Hx a' b).
    + intros ((Ha & H1) & H2 & Hx). repeat split; try assumption.
      * intros Hok b Hb. apply elem_of_app in Hb as [Hb|Hb].
        -- now apply Ha.
        -- apply (Hx a b); [apply list_elem_of_here | exact Hok | exact Hb].
      * intros a' b Ha' Hok Hb. apply (Hx a' b); [|exact Hok|exact Hb].
        now apply list_elem_of_further.
Qed.

Lemma settled_split (T : list attempt) :
  settled T ->
  forall pre a post,
    T = pre ++ a :: post -> a_ok a = true ->
    forall b, b ∈ post -> attempt_id b <> attempt_id a.
Proof.
  intros HT pre a post -> Hok b Hb.
  apply settled_app in HT as (_ & [Ha _] & _). now apply Ha.
Qed.

Lemma settled_successes (T : list attempt) (id : pystr) :
  settled T -> (successes id T <= 1)%nat.
Proof.
  unfold successes. induction T as [|a T IH]; simpl; [lia|].
  intros [Ha HT]. specialize (IH HT).
  destruct (a_ok a) eqn:Hok; simpl; [|exact IH].
  destruct (bool_decide (attempt_id a = Ok id)) eqn:Hid; simpl; [|exact IH].
  apply bool_decide_eq_true in Hid.
  replace (List.filter _ T) with (@nil attempt); [simpl; lia|].
  symmetry. clear IH HT. induction T as [|b T IHT]; [reflexivity|].
  simpl. rewrite (bool_decide_eq_false_2 (attempt_id b = Ok id)).
  - rewrite andb_false_r. apply IHT.
    intros _ b' Hb'. apply Ha; [reflexivity|]. now apply list_elem_of_further.
  - rewrite <- Hid. apply Ha; [reflexivity | apply list_elem_of_here].
Qed.

Lemma stretch_refl (c : conn) : stretch c [] c.
Proof.
  split; simpl; auto.
  - now rewrite app_nil_r.
  - intros a Ha. inversion Ha.
  - intros a id Ha. inversion Ha.
Qed.

Lemma stretch_trans (c c1 c2 : conn) (T1 T2 : list attempt) :
  stretch c T1 c1 -> stretch c1 T2 c2 -> stretch c (T1 ++ T2) c2.
Proof.
  intros [O1 G1 F1 M1 Y1 S1] [O2 G2 F2 M2 Y2 S2]. split.
  - now rewrite O2, O1, app_assoc.
  - now transitivity (known c1).
  - intros a Ha. apply elem_of_app in Ha as [Ha|Ha]; [now apply F1|].
    destruct (F2 a Ha) as (id & Hid & Hn). exists id. split; [exact Hid|].
    intros Hin. apply Hn. now apply G1.
  - intros a id Ha Hok Hid. apply elem_of_app in Ha as [Ha|Ha].
    + apply G2. now apply (M1 a).
    + now apply (M2 a).
  - intros id Hin. destruct (Y2 id Hin) as [H1|(a & Ha & Hok & Hid)].
    + destruct (Y1 id H1) as [H0|(a & Ha & Hok & Hid)]; [now left|].
      right. exists a. rewrite elem_of_app. auto.
    + right. exists a. rewrite elem_of_app. auto.
  - apply settled_app. split; [exact S1|]. split; [exact S2|].
    intros a b Ha Hok Hb Heq.
    destruct (F1 a Ha) as (id & Hid & _).
    destruct (F2 b Hb) as (id' & Hid' & Hn).
    apply Hn. rewrite Heq, Hid in Hid'. injection Hid' as <-.
    now apply (M1 a).
Qed.

(** What [process_message] does, case by case. *)
Lemma process_message_cases (pc : fragment) (c : conn) :
  match _parse_message pc with
  | None => process_message env pc c = (Ok false, c)
  | Some msg =>
      match _compute_message_id (msg_is_group msg) (msg_sender msg)
              (msg_content msg) with
      | Raise e => process_message env pc c = (Raise e, c)
      | Ok id =>
          if is_processed (dedup c) id then
            process_message env pc c = (Ok false, c)
          else if _send_to_webhook (msg_chat_name msg) (msg_sender msg)
                    (msg_content msg) (http env (length (outbox c))) then
            process_message env pc c
            = (Ok true,
               Conn (Store ({[ id ]} ∪ known c))
                 (_save (Store ({[ id ]} ∪ known c))
                    (clock env (saves c)) (fsio env (saves c)) (file c))
                 (outbox c ++ [Attempt msg true]) (S (saves c)))
          else
            process_message env pc c
            = (Ok false,
               Conn (dedup c) (file c) (outbox c ++ [Attempt msg false])
                 (saves c))
      end
  end.
Proof.
  unfold process_message.
  destruct (_parse_message pc) as [msg|]; [|reflexivity].
  unfold bind, lift, dedup_is_processed, send, dedup_mark_processed, ret.
  destruct (_compute_message_id _ _ _) as [id|e]; [|reflexivity].
  destruct (is_processed (dedup c) id); [reflexivity|].
  simpl.
  destruct (_send_to_webhook _ _ _ _); reflexivity.
Qed.

Lemma process_message_stretch (pc : fragment) (c : conn) :
  exists T, stretch c T (snd (process_message env pc c)).
Proof.
  pose proof (process_message_cases pc c) as H.
  destruct (_parse_message pc) as [msg|];
    [|rewrite H; exists []; apply stretch_refl].
  destruct (_compute_message_id _ _ _) as [id|e] eqn:Hid;
    [|rewrite H; exists []; apply stretch_refl].
  destruct (is_processed (dedup c) id) eqn:Hknown;
    [rewrite H; exists []; apply stretch_refl|].
  assert (Hnew : id ∉ known c).
  { intros Hin. apply is_processed_iff in Hin. unfold known in *. congruence. }
  destruct (_send_to_webhook _ _ _ _) eqn:Hsend; rewrite H; simpl.
  - exists [Attempt msg true]. split; simpl.
    + reflexivity.
    + unfold known. simpl. apply union_subseteq_r.
    + intros a Ha. apply list_elem_of_singleton in Ha as ->.
      exists id. auto.
    + intros a id' Ha _ Hid'. apply list_elem_of_singleton in Ha as ->.
      unfold attempt_id in Hid'. simpl in Hid'. rewrite Hid in Hid'.
      injection Hid' as <-. unfold known. simpl.
      apply elem_of_union_l, elem_of_singleton. reflexivity.
    + intros id' Hin. unfold known in Hin. simpl in Hin.
      apply elem_of_union in Hin as [Hin|Hin]; [|now left].
      apply elem_of_singleton in Hin as ->. right.
      exists (Attempt msg true). split; [apply list_elem_of_here|]. auto.
    + split; [|exact I]. intros _ b Hb. inversion Hb.
  - exists [Attempt msg false]. split; simpl.
    + reflexivity.
    + reflexivity.
    + intros a Ha. apply list_elem_of_singleton in Ha as ->.
      exists id. auto.
    + intros a id' Ha Hok. apply list_elem_of_singleton in Ha as ->.
      discriminate.
    + intros id' Hin. now left.
    + split; [|exact I]. discriminate.
Qed.

Lemma process_all_stretch (pcs : list fragment) (n : nat) (c : conn) :
  exists T, stretch c T (snd (process_all env pcs n c)).
Proof.
  revert n c. induction pcs as [|pc pcs IH]; intros n c; simpl.
  - exists []. apply stretch_refl.
  - unfold bind. destruct (process_message_stretch pc c) as (T1 & H1).
    destruct (process_message env pc c) as [[b|e] c1]; simpl in *.
    + destruct (IH (if b then S n else n) c1) as (T2 & H2).
      exists (T1 ++ T2). now apply (stretch_trans c c1).
    + exists T1. exact H1.
Qed.

Lemma poll_once_stretch (content : option pystr) (c : conn) :
  exists T, stretch c T (snd (poll_once env content c)).
Proof.
  unfold poll_once. destruct content as [text|];
    [|exists []; apply stretch_refl].
  destruct (_extract_pushcontent text) as [|pc pcs] eqn:Hpcs;
    [exists []; apply stretch_refl|].
  apply process_all_stretch.
Qed.

End RunFacts.

Section RetryFacts.
Variable env : oracle.

Lemma since_app (c c' : conn) (T : list attempt) :
  outbox c' = outbox c ++ T -> since c c' = T.
Proof.
  intros H. unfold since. rewrite H, skipn_app, Nat.sub_diag, skipn_all.
  reflexivity.
Qed.

Lemma process_message_attempt (pc : fragment) (c : conn) msg id :
  _parse_message pc = Some msg ->
  _compute_message_id (msg_is_group msg) (msg_sender msg) (msg_content msg)
  = Ok id ->
  is_processed (dedup c) id = false ->
  exists ok,
    ok = _send_to_webhook (msg_chat_name msg) (msg_sender msg)
           (msg_content msg) (http env (length (outbox c)))
    /\ fst (process_message env pc c) = Ok ok
    /\ outbox (snd (process_message env pc c))
       = outbox c ++ [Attempt msg ok].
Proof.
  intros Hp Hid Hk. pose proof (process_message_cases env pc c) as H.
  rewrite Hp, Hid, Hk in H.
  destruct (_send_to_webhook _ _ _ _); rewrite H; eexists; simpl; eauto.
Qed.

Lemma process_all_attempts (pcs : list fragment) (n : nat) (c : conn)
    r c2 pc msg id :
  process_all env pcs n c = (Ok r, c2) ->
  pc ∈ pcs ->
  _parse_message pc = Some msg ->
  _compute_message_id (msg_is_group msg) (msg_sender msg) (msg_content msg)
  = Ok id ->
  id ∉ known c ->
  exists a, a ∈ since c c2 /\ attempt_id a = Ok id.
Proof.
  intros Hrun Hin Hp Hid. revert n c Hrun.
  induction pcs as [|pc0 pcs IH]; intros n c Hrun Hnew; [inversion Hin|].
  simpl in Hrun. unfold bind in Hrun.
  destruct (process_message_stretch env pc0 c) as (T1 & H1).
  destruct (process_message env pc0 c) as [[b|e] c1] eqn:Hstep;
    [|discriminate].
  simpl in H1.
  destruct (process_all_stretch env pcs (if b then S n else n) c1)
    as (T2 & H2).
  rewrite Hrun in H2. simpl in H2.
  pose proof (stretch_trans c c1 c2 T1 T2 H1 H2) as H12.
  rewrite (since_app c c2 _ (st_outbox _ _ _ H12)).
  destruct (decide (id ∈ known c1)) as [Hk|Hk].
  - destruct (st_only _ _ _ H1 id Hk) as [H0|(a & Ha & _ & Ha')];
      [contradiction|].
    exists a. split; [|exact Ha']. apply elem_of_app. now left.
  - apply elem_of_cons in Hin as [->|Hin].
    + assert (Hk0 : is_processed (dedup c) id = false).
      { apply not_true_is_false. intros E. apply is_processed_iff in E.
        contradiction. }
      destruct (process_message_attempt pc0 c msg id Hp Hid Hk0)
        as (ok & _ & _ & Hout).
      rewrite Hstep in Hout. simpl in Hout.
      rewrite (st_outbox _ _ _ H1) in Hout. apply app_inv_head in Hout.
      exists (Attempt msg ok). split.
      * apply elem_of_app. left. rewrite Hout. apply list_elem_of_here.
      * exact Hid.
    + destruct (IH Hin _ _ Hrun Hk) as (a & Ha & Ha').
      rewrite (since_app c1 c2 _ (st_outbox _ _ _ H2)) in Ha.
      exists a. split; [|exact Ha']. apply elem_of_app. now right.
Qed.

Lemma poll_once_attempts (text : pystr) (c : conn) r c2 pc msg id :
  poll_once env (Some text) c = (Ok r, c2) ->
  pc ∈ _extract_pushcontent text ->
  _parse_message pc = Some msg ->
  _compute_message_id (msg_is_group msg) (msg_sender msg) (msg_content msg)
  = Ok id ->
  id ∉ known c ->
  exists a, a ∈ since c c2 /\ attempt_id a = Ok id.
Proof.
  unfold poll_once. intros Hrun Hin.
  destruct (_extract_pushcontent text) as [|pc0 pcs] eqn:Hpcs;
    [inversion Hin|].
  intros Hp Hid Hnew.
  exact (process_all_attempts _ _ _ _ _ _ _ _ Hrun Hin Hp Hid Hnew).
Qed.

End RetryFacts.

(** C1.  Two consecutive poll cycles of one connector, whatever the replies
    of the endpoint and of the file system, and whatever the two texts (in
    particular one text twice): once a webhook call for an identity has
    succeeded, no later call of either cycle is for that identity, so each
    identity has at most one successful call in total; an identity whose
    call succeeded is known to the store from then on; a call of the second
    cycle is only ever for an identity the store did not know when that
    cycle began.  With one tag and an endpoint that answers 200, the two
    cycles make one call. *)
Theorem C1_dispatched_at_most_once
    (env : oracle) (content1 content2 : option pystr) (c0 : conn) :
  let c1 := snd (poll_once env content1 c0) in
  let c2 := snd (poll_once env content2 c1) in
  let T1 := since c0 c1 in
  let T2 := since c1 c2 in
  outbox c2 = outbox c0 ++ T1 ++ T2
  /\ (forall pre a post,
        T1 ++ T2 = pre ++ a :: post -> a_ok a = true ->
        forall b, b ∈ post -> attempt_id b <> attempt_id a)
  /\ (forall id, (successes id (T1 ++ T2) <= 1)%nat)
  /\ (forall a id,
        a ∈ T1 ++ T2 -> a_ok a = true -> attempt_id a = Ok id ->
        is_processed (dedup c2) id = true)
  /\ (forall a id,
        a ∈ T1 -> a_ok a = true -> attempt_id a = Ok id ->
        is_processed (dedup c1) id = true
        /\ forall b, b ∈ T2 -> attempt_id b <> Ok id)
  /\ (forall b,
        b ∈ T2 ->
        exists id, attempt_id b = Ok id /\ is_processed (dedup c1) id = false)
  /\ (let text := Some (plain_tag bob) in
      let after1 := snd (poll_once always_ok text fresh) in
      let after2 := snd (poll_once always_ok text after1) in
      outbox after1
      = [Attempt (Message (PyStr.lit "Bob") (PyStr.lit "hello") false
                    direct_label) true]
      /\ outbox after2 = outbox after1).
Proof.
  intros c1 c2 T1 T2.
  destruct (poll_once_stretch env content1 c0) as (U1 & H1). fold c1 in H1.
  destruct (poll_once_stretch env content2 c1) as (U2 & H2). fold c2 in H2.
  assert (E1 : T1 = U1) by (apply since_app, (st_outbox _ _ _ H1)).
  assert (E2 : T2 = U2) by (apply since_app, (st_outbox _ _ _ H2)).
  rewrite E1, E2. clear E1 E2 T1 T2.
  pose proof (stretch_trans c0 c1 c2 U1 U2 H1 H2) as H12.
  split; [exact (st_outbox _ _ _ H12)|].
  split; [exact (settled_split _ (st_settled _ _ _ H12))|].
  split; [intros id; exact (settled_successes _ id (st_settled _ _ _ H12))|].
  split; [|split; [|split]].
  - intros a id Ha Hok Hid. apply is_processed_iff.
    exact (st_marks _ _ _ H12 a id Ha Hok Hid).
  - intros a id Ha Hok Hid.
    pose proof (st_marks _ _ _ H1 a id Ha Hok Hid) as Hk.
    split; [now apply is_processed_iff|].
    intros b Hb Hbid. destruct (st_fresh _ _ _ H2 b Hb) as (id' & Hid' & Hn).
    rewrite Hbid in Hid'. injection Hid' as <-. contradiction.
  - intros b Hb. destruct (st_fresh _ _ _ H2 b Hb) as (id & Hid & Hn).
    exists id. split; [exact Hid|].
    apply not_true_is_false. intros E. now apply is_processed_iff in E.
  - vm_compute. split; reflexivity.
Qed.

(** C5.  A fragment whose message has an identity the store does not know,
    and whose webhook call returns false: [process_message] returns false,
    the store, the file and the save count are as before, the one effect is
    the failed call in the outbox, and the identity is still unknown.  In
    any later cycle that runs to its end over a text with that fragment,
    while the identity is unknown at its start, a call for the identity is
    made again.  And whatever a cycle adds to the store is the identity of
    a call of that cycle that returned true. *)
Theorem C5_failed_dispatch_is_retried
    (env : oracle) (pc : fragment) (c : conn) (msg : message) (id : pystr) :
  _parse_message pc = Some msg ->
  _compute_message_id (msg_is_group msg) (msg_sender msg) (msg_content msg)
  = Ok id ->
  is_processed (dedup c) id = false ->
  _send_to_webhook (msg_chat_name msg) (msg_sender msg) (msg_content msg)
    (http env (length (outbox c))) = false ->
  let r := process_message env pc c in
  fst r = Ok false
  /\ dedup (snd r) = dedup c
  /\ file (snd r) = file c
  /\ saves (snd r) = saves c
  /\ outbox (snd r) = outbox c ++ [Attempt msg false]
  /\ is_processed (dedup (snd r)) id = false
  /\ (forall env' text c1 n c2,
        is_processed (dedup c1) id = false ->
        pc ∈ _extract_pushcontent text ->
        poll_once env' (Some text) c1 = (Ok n, c2) ->
        exists a, a ∈ since c1 c2 /\ attempt_id a = Ok id)
  /\ (forall env' content c1 x,
        let c2 := snd (poll_once env' content c1) in
        is_processed (dedup c2) x = true ->
        is_processed (dedup c1) x = true
        \/ exists a,
             a ∈ since c1 c2 /\ a_ok a = true /\ attempt_id a = Ok x).
Proof.
  intros Hp Hid Hk Hsend r.
  pose proof (process_message_cases env pc c) as H.
  rewrite Hp, Hid, Hk, Hsend in H. subst r. rewrite H. simpl.
  repeat (split; [reflexivity || exact Hk|]). split.
  - intros env' text c1 n c2 Hk1 Hin Hrun.
    apply (poll_once_attempts env' text c1 n c2 pc msg id Hrun Hin Hp Hid).
    intros E. apply is_processed_iff in E. congruence.
  - intros env' content c1 x Hx.
    set (c2 := snd (poll_once env' content c1)) in *.
    destruct (poll_once_stretch env' content c1) as (T & HT). fold c2 in HT.
    rewrite (since_app c1 c2 T (st_outbox _ _ _ HT)).
    apply is_processed_iff in Hx.
    destruct (st_only _ _ _ HT x Hx) as [H0|Ha]; [left|right; exact Ha].
    now apply is_processed_iff.
Qed.

Lemma C5_failed_dispatch_witness :
  let id := PyStr.lit "7cd269844391191fc22929f9e6eafe3c" in
  let after1 := snd (poll_once never_replies (Some (plain_tag bob)) fresh) in
  let after2 := snd (poll_once always_ok (Some (plain_tag bob)) after1) in
  _compute_message_id false (PyStr.lit "Bob") (PyStr.lit "hello") = Ok id
  /\ outbox (snd (process_message never_replies bob fresh))
     = [Attempt (Message (PyStr.lit "Bob") (PyStr.lit "hello") false
                   direct_label) false]
  /\ dedup (snd (process_message never_replies bob fresh)) = Store ∅
  /\ exists a, a ∈ since after1 after2 /\ attempt_id a = Ok id.
Proof.
  intros id after1 after2.
  assert (Hid : _compute_message_id false (PyStr.lit "Bob")
                  (PyStr.lit "hello") = Ok id)
    by (vm_compute; reflexivity).
  destruct (C5_failed_dispatch_is_retried never_replies bob fresh
              (Message (PyStr.lit "Bob") (PyStr.lit "hello") false direct_label)
              id)
    as (_ & Hstore & _ & _ & Hout & _ & Hretry & _).
  - reflexivity.
  - exact Hid.
  - apply bool_decide_eq_false, not_elem_of_empty.
  - reflexivity.
  - split; [exact Hid|]. split; [exact Hout|]. split; [exact Hstore|].
    apply (Hretry always_ok (plain_tag bob) after1 1%nat after2).
    + vm_compute. reflexivity.
    + vm_compute. apply list_elem_of_here.
    + vm_compute. reflexivity.
Defined.

(** * Further properties *)

(** ** One poll cycle *)

Section CycleFacts.
Variable env : oracle.

Lemma ok_calls_app (T1 T2 : list attempt) :
  ok_calls (T1 ++ T2) = (ok_calls T1 + ok_calls T2)%nat.
Proof. unfold ok_calls. now rewrite List.filter_app, length_app. Qed.

Lemma since_trans (c c1 c2 : conn) (T1 T2 : list attempt) :
  outbox c1 = outbox c ++ T1 -> outbox c2 = outbox c1 ++ T2 ->
  since c c2 = since c c1 ++ since c1 c2.
Proof.
  intros H1 H2. rewrite (since_app c c1 T1 H1), (since_app c1 c2 T2 H2).
  apply since_app. now rewrite H2, H1, app_assoc.
Qed.

Lemma since_refl (c : conn) : since c c = [].
Proof. apply since_app. now rewrite app_nil_r. Qed.

(** One fragment: the answer counts the successful call, and a successful
    call adds one identity to the store. *)
Lemma process_message_count (pc : fragment) (c : conn) (b : bool) c1 :
  process_message env pc c = (Ok b, c1) ->
  ok_calls (since c c1) = (if b then 1 else 0)%nat
  /\ size (known c1) = (size (known c) + if b then 1 else 0)%nat.
Proof.
  pose proof (process_message_cases env pc c) as H.
  destruct (_parse_message pc) as [msg|].
  2:{ rewrite H. intros [= <- <-]. rewrite since_refl. split; [reflexivity|lia]. }
  destruct (_compute_message_id _ _ _) as [id|e]; [|rewrite H; discriminate].
  destruct (is_processed (dedup c) id) eqn:Hk.
  { rewrite H. intros [= <- <-]. rewrite since_refl. split; [reflexivity|lia]. }
  assert (Hnew : id ∉ known c).
  { intros Hin. apply is_processed_iff in Hin. unfold known in *. congruence. }
  destruct (_send_to_webhook _ _ _ _); rewrite H; intros [= <- <-].
  - split; [now rewrite (since_app c _ [Attempt msg true])|].
    unfold known at 1. simpl.
    rewrite size_union by (apply disjoint_singleton_l; exact Hnew).
    rewrite size_singleton. apply Nat.add_comm.
  - split; [now rewrite (since_app c _ [Attempt msg false])|].
    unfold known. simpl. lia.
Qed.

Lemma process_all_count (pcs : list fragment) (n0 : nat) (c : conn) n c' :
  process_all env pcs n0 c = (Ok n, c') ->
  n = (n0 + ok_calls (since c c'))%nat
  /\ size (known c') = (size (known c) + ok_calls (since c c'))%nat.
Proof.
  revert n0 c. induction pcs as [|pc pcs IH]; intros n0 c; simpl.
  - intros [= <- <-]. rewrite since_refl. unfold ok_calls. simpl. split; lia.
  - unfold bind. destruct (process_message env pc c) as [[b|e] c1] eqn:Hstep;
      [|discriminate].
    intros Hrest.
    destruct (process_message_count pc c b c1 Hstep) as [Hc1 Hs1].
    destruct (IH _ _ Hrest) as [Hc2 Hs2].
    destruct (process_message_stretch env pc c) as (T1 & H1).
    rewrite Hstep in H1. simpl in H1.
    destruct (process_all_stretch env pcs (if b then S n0 else n0) c1)
      as (T2 & H2).
    rewrite Hrest in H2. simpl in H2.
    rewrite (since_trans c c1 c' T1 T2 (st_outbox _ _ _ H1)
               (st_outbox _ _ _ H2)).
    rewrite ok_calls_app, Hc1. destruct b; lia.
Qed.

End CycleFacts.

(** X1.  The number a poll cycle returns is the number of its webhook calls
    that returned true, and the store has grown by exactly that many
    identities. *)
Theorem poll_once_counts_new_identities
    (env : oracle) (content : option pystr) (c : conn) (n : nat) (c' : conn) :
  poll_once env content c = (Ok n, c') ->
  n = ok_calls (since c c')
  /\ size (known c') = (size (known c) + n)%nat.
Proof.
  unfold poll_once. destruct content as [text|].
  - destruct (_extract_pushcontent text) as [|pc pcs].
    + intros [= <- <-]. rewrite since_refl. split; [reflexivity|lia].
    + intros Hrun. destruct (process_all_count env _ _ _ _ _ Hrun) as [-> Hs].
      split; [reflexivity|]. simpl. exact Hs.
  - intros [= <- <-]. rewrite since_refl. split; [reflexivity|lia].
Qed.

Lemma poll_once_counts_witness :
  let text := plain_tag alice ++ malformed_tag ++ plain_tag bob
                ++ plain_tag alice in
  fst (poll_once always_ok (Some text) fresh) = Ok 2%nat
  /\ size (known (snd (poll_once always_ok (Some text) fresh))) = 2%nat.
Proof.
  intros text.
  assert (Hrun : poll_once always_ok (Some text) fresh
                 = (Ok 2%nat, snd (poll_once always_ok (Some text) fresh)))
    by (vm_compute; reflexivity).
  destruct (poll_once_counts_new_identities _ _ _ _ _ Hrun) as [_ Hsize].
  split; [now rewrite Hrun|]. rewrite Hsize. reflexivity.
Defined.

Section IdleFacts.
Variable env : oracle.

Lemma process_message_known (pc : fragment) (c : conn) :
  fragment_known c pc -> process_message env pc c = (Ok false, c).
Proof.
  intros (msg & id & Hp & Hid & Hin).
  pose proof (process_message_cases env pc c) as H.
  rewrite Hp, Hid in H.
  now rewrite (proj2 (is_processed_iff (dedup c) id) Hin) in H.
Qed.

Lemma process_all_known (pcs : list fragment) (n : nat) (c : conn) :
  (forall pc, pc ∈ pcs -> fragment_known c pc) ->
  process_all env pcs n c = (Ok n, c).
Proof.
  revert n. induction pcs as [|pc pcs IH]; intros n Hall; [reflexivity|].
  simpl. unfold bind.
  rewrite (process_message_known pc c (Hall pc (list_elem_of_here _ _))).
  apply IH. intros pc' Hin. apply Hall. now apply list_elem_of_further.
Qed.

End IdleFacts.

(** X2.  A cycle with nothing new touches nothing: when no text could be
    read, or every fragment of the text has a message whose identity the
    store knows (in particular when the text holds no tag), [poll_once]
    returns 0 and leaves the store, the file, the outbox and the save count
    exactly as they were. *)
Theorem poll_once_idle_when_nothing_new
    (env : oracle) (content : option pystr) (c : conn) :
  (forall text pc,
      content = Some text -> pc ∈ _extract_pushcontent text ->
      fragment_known c pc) ->
  poll_once env content c = (Ok 0%nat, c).
Proof.
  intros Hall. unfold poll_once. destruct content as [text|]; [|reflexivity].
  destruct (_extract_pushcontent text) as [|pc pcs] eqn:Hpcs; [reflexivity|].
  apply process_all_known. intros pc' Hin. apply (Hall text); [reflexivity|].
  now rewrite Hpcs.
Qed.

Lemma poll_once_idle_witness :
  let text := Some (plain_tag bob ++ plain_tag bob) in
  let c1 := snd (poll_once always_ok text fresh) in
  poll_once never_replies text c1 = (Ok 0%nat, c1).
Proof.
  intros text c1. apply poll_once_idle_when_nothing_new.
  intros t pc [= <-] Hin.
  assert (Hpc : pc = bob).
  { vm_compute in Hin.
    apply elem_of_cons in Hin as [->|Hin]; [reflexivity|].
    apply elem_of_cons in Hin as [->|Hin]; [reflexivity|]. inversion Hin. }
  subst pc.
  exists (Message (PyStr.lit "Bob") (PyStr.lit "hello") false direct_label),
         (PyStr.lit "7cd269844391191fc22929f9e6eafe3c").
  split; [reflexivity|]. split; [vm_compute; reflexivity|].
  apply is_processed_iff. vm_compute. reflexivity.
Defined.

Section OrderFacts.
Variable env : oracle.

Lemma process_message_sends (pc : fragment) (c : conn) :
  List.map a_msg (since c (snd (process_message env pc c)))
    `sublist_of` omap _parse_message [pc].
Proof.
  pose proof (process_message_cases env pc c) as H. simpl.
  destruct (_parse_message pc) as [msg|];
    [|rewrite H; simpl; rewrite since_refl; constructor].
  destruct (_compute_message_id _ _ _) as [id|e];
    [|rewrite H; simpl; rewrite since_refl; apply sublist_nil_l].
  destruct (is_processed (dedup c) id);
    [rewrite H; simpl; rewrite since_refl; apply sublist_nil_l|].
  destruct (_send_to_webhook _ _ _ _); rewrite H; simpl.
  - now rewrite (since_app c _ [Attempt msg true]).
  - now rewrite (since_app c _ [Attempt msg false]).
Qed.

Lemma omap_cons_app {A B} (f : A -> option B) (x : A) (l : list A) :
  omap f (x :: l) = omap f [x] ++ omap f l.
Proof. simpl. now destruct (f x). Qed.

Lemma process_all_sends (pcs : list fragment) (n : nat) (c : conn) :
  List.map a_msg (since c (snd (process_all env pcs n c)))
    `sublist_of` omap _parse_message pcs.
Proof.
  revert n c. induction pcs as [|pc pcs IH]; intros n c.
  - simpl. rewrite since_refl. constructor.
  - rewrite omap_cons_app. simpl process_all. unfold bind.
    pose proof (process_message_sends pc c) as Hhd.
    destruct (process_message_stretch env pc c) as (T1 & H1).
    destruct (process_message env pc c) as [[b|e] c1] eqn:Hstep;
      simpl snd in *.
    + specialize (IH (if b then S n else n) c1).
      destruct (process_all_stretch env pcs (if b then S n else n) c1)
        as (T2 & H2).
      rewrite (since_trans c c1 _ T1 T2 (st_outbox _ _ _ H1)
                 (st_outbox _ _ _ H2)).
      rewrite List.map_app. now apply sublist_app.
    + now apply sublist_inserts_r.
Qed.

End OrderFacts.

(** X3.  A cycle only sends what the text holds, in the order of the text:
    the messages of its webhook calls, in the order of the calls, are a
    subsequence of the messages of the fragments of the text; and with no
    text there is no call. *)
Theorem poll_once_sends_messages_of_text_in_order
    (env : oracle) (content : option pystr) (c : conn) :
  List.map a_msg (since c (snd (poll_once env content c)))
    `sublist_of` match content with
                 | Some text => messages_of text
                 | None => []
                 end.
Proof.
  unfold poll_once, messages_of. destruct content as [text|].
  - destruct (_extract_pushcontent text) as [|pc pcs].
    + simpl. rewrite since_refl. constructor.
    + apply process_all_sends.
  - simpl. rewrite since_refl. constructor.
Qed.

(** ** Any number of cycles, and a restart *)

Section CyclesFacts.
Variable env : oracle.

Lemma cycles_stretch (contents : list (option pystr)) (c : conn) :
  exists T, stretch c T (snd (cycles env contents c)).
Proof.
  revert c. induction contents as [|content contents IH]; intros c; simpl.
  - exists []. apply stretch_refl.
  - unfold bind. destruct (poll_once_stretch env content c) as (T1 & H1).
    destruct (poll_once env content c) as [[n|e] c1]; simpl in *.
    + destruct (IH c1) as (T2 & H2). exists (T1 ++ T2).
      now apply (stretch_trans c c1).
    + exists T1. exact H1.
Qed.

Lemma hex_scalar (c : N) : is_hex c = true -> PyStr.scalar c = true.
Proof.
  unfold is_hex, PyStr.scalar. intros H.
  apply orb_true_iff. left. apply N.ltb_lt.
  apply orb_true_iff in H as [H|H]; apply andb_true_iff in H as [_ H];
    apply N.leb_le in H; lia.
Qed.

Lemma message_id_encodable (g : bool) (s t id : pystr) :
  _compute_message_id g s t = Ok id -> encodable id = true.
Proof.
  unfold _compute_message_id. cbv zeta.
  destruct (PyStr.encode_utf8 _) as [bs|]; [|discriminate].
  intros [= <-]. unfold encodable.
  destruct (encode_utf8_scalar (MD5.hexdigest bs)) as [bs' ->]; [|reflexivity].
  apply forallb_forall. intros x Hx. apply hex_scalar.
  pose proof (hexdigest_is_hex bs) as Hhex.
  rewrite List.Forall_forall in Hhex. now apply Hhex.
Qed.

Lemma fs_reliable_later (n m : nat) :
  (n <= m)%nat -> fs_reliable env n -> fs_reliable env m.
Proof. intros Hle H k Hk. apply H. lia. Qed.

Lemma process_message_sync (pc : fragment) (c : conn) :
  in_sync c -> store_encodable (dedup c) -> fs_reliable env (saves c) ->
  let c1 := snd (process_message env pc c) in
  in_sync c1 /\ store_encodable (dedup c1) /\ (saves c <= saves c1)%nat.
Proof.
  intros Hsync Henc Hfs. pose proof (process_message_cases env pc c) as H.
  destruct (_parse_message pc) as [msg|]; [|rewrite H; simpl; auto].
  destruct (_compute_message_id _ _ _) as [id|e] eqn:Hid;
    [|rewrite H; simpl; auto].
  destruct (is_processed (dedup c) id); [rewrite H; simpl; auto|].
  destruct (_send_to_webhook _ _ _ _); rewrite H; simpl; [|auto].
  assert (Henc' : store_encodable (Store ({[ id ]} ∪ known c))).
  { intros x Hx. simpl in Hx. apply elem_of_union in Hx as [Hx|Hx].
    - apply elem_of_singleton in Hx as ->.
      exact (message_id_encodable _ _ _ _ Hid).
    - now apply Henc. }
  split; [|split; [exact Henc' | lia]].
  unfold in_sync. simpl. unfold _save.
  destruct (Hfs (saves c) (le_n _)) as (Hd & Ho & Hw).
  rewrite (save_body_ok _ _ _ _ (conj Hd (conj Ho (conj Hw Henc')))).
  apply init_document.
Qed.

Lemma process_all_sync (pcs : list fragment) (n : nat) (c : conn) :
  in_sync c -> store_encodable (dedup c) -> fs_reliable env (saves c) ->
  let c1 := snd (process_all env pcs n c) in
  in_sync c1 /\ store_encodable (dedup c1) /\ (saves c <= saves c1)%nat.
Proof.
  revert n c. induction pcs as [|pc pcs IH]; intros n c Hs He Hf; simpl.
  - auto.
  - unfold bind.
    destruct (process_message_sync pc c Hs He Hf) as (Hs1 & He1 & Hle).
    destruct (process_message env pc c) as [[b|e] c1]; simpl in *.
    + destruct (IH (if b then S n else n) c1 Hs1 He1
                  (fs_reliable_later _ _ Hle Hf)) as (Hs2 & He2 & Hle2).
      repeat split; try assumption. lia.
    + auto.
Qed.

Lemma poll_once_sync (content : option pystr) (c : conn) :
  in_sync c -> store_encodable (dedup c) -> fs_reliable env (saves c) ->
  let c1 := snd (poll_once env content c) in
  in_sync c1 /\ store_encodable (dedup c1) /\ (saves c <= saves c1)%nat.
Proof.
  intros Hs He Hf. unfold poll_once. destruct content as [text|]; [|simpl; auto].
  destruct (_extract_pushcontent text) as [|pc pcs]; [simpl; auto|].
  now apply process_all_sync.
Qed.

Lemma cycles_sync (contents : list (option pystr)) (c : conn) :
  in_sync c -> store_encodable (dedup c) -> fs_reliable env (saves c) ->
  let c1 := snd (cycles env contents c) in
  in_sync c1 /\ store_encodable (dedup c1) /\ (saves c <= saves c1)%nat.
Proof.
  revert c. induction contents as [|content contents IH]; intros c Hs He Hf;
    simpl; [auto|].
  unfold bind.
  destruct (poll_once_sync content c Hs He Hf) as (Hs1 & He1 & Hle).
  destruct (poll_once env content c) as [[n|e] c1]; simpl in *; [|auto].
  destruct (IH c1 Hs1 He1 (fs_reliable_later _ _ Hle Hf)) as (Hs2 & He2 & Hle2).
  repeat split; try assumption. lia.
Qed.

End CyclesFacts.

(** X4.  However many cycles run one after the other, and whatever the
    endpoint and the file system answer: after a webhook call for an
    identity has returned true no later call is for that identity, so each
    identity has at most one successful call over the whole run; every call
    is for an identity the store did not know when the run began; and the
    identities of the successful calls are known at the end. *)
Theorem cycles_dispatch_at_most_once
    (env : oracle) (contents : list (option pystr)) (c : conn) :
  let c' := snd (cycles env contents c) in
  let T := since c c' in
  outbox c' = outbox c ++ T
  /\ (forall pre a post,
        T = pre ++ a :: post -> a_ok a = true ->
        forall b, b ∈ post -> attempt_id b <> attempt_id a)
  /\ (forall id, (successes id T <= 1)%nat)
  /\ (forall a, a ∈ T ->
                exists id, attempt_id a = Ok id
                           /\ is_processed (dedup c) id = false)
  /\ (forall a id,
        a ∈ T -> a_ok a = true -> attempt_id a = Ok id ->
        is_processed (dedup c') id = true).
Proof.
  intros c' T. destruct (cycles_stretch env contents c) as (U & H).
  fold c' in H. assert (E : T = U) by apply since_app, (st_outbox _ _ _ H).
  rewrite E. clear E T.
  split; [exact (st_outbox _ _ _ H)|].
  split; [exact (settled_split _ (st_settled _ _ _ H))|].
  split; [intros id; exact (settled_successes _ id (st_settled _ _ _ H))|].
  split.
  - intros a Ha. destruct (st_fresh _ _ _ H a Ha) as (id & Hid & Hn).
    exists id. split; [exact Hid|]. apply not_true_is_false.
    intros E. now apply is_processed_iff in E.
  - intros a id Ha Hok Hid. apply is_processed_iff.
    exact (st_marks _ _ _ H a id Ha Hok Hid).
Qed.

(** X5.  Persistence across a restart.  Start from a connector whose file
    holds its store, with ids that UTF-8 can encode, and let every save go
    through.  After any number of cycles the file again holds the store, so
    a new process on the same data directory starts with the same store,
    and in no cycle of the new process is there a webhook call for an
    identity whose call had returned true before the restart. *)
Theorem restart_keeps_what_was_dispatched
    (env : oracle) (contents : list (option pystr)) (c : conn) :
  in_sync c -> store_encodable (dedup c) -> fs_reliable env (saves c) ->
  let c' := snd (cycles env contents c) in
  in_sync c'
  /\ dedup (restart c') = dedup c'
  /\ forall a id,
       a ∈ since c c' -> a_ok a = true -> attempt_id a = Ok id ->
       forall env' contents' b,
         b ∈ since (restart c') (snd (cycles env' contents' (restart c'))) ->
         attempt_id b <> Ok id.
Proof.
  intros Hs He Hf c'.
  destruct (cycles_sync env contents c Hs He Hf) as (Hs' & _ & _).
  fold c' in Hs'. split; [exact Hs'|]. split; [exact Hs'|].
  intros a id Ha Hok Hid env' contents' b Hb Hbid.
  destruct (cycles_stretch env contents c) as (T & HT). fold c' in HT.
  rewrite (since_app c c' T (st_outbox _ _ _ HT)) in Ha.
  pose proof (st_marks _ _ _ HT a id Ha Hok Hid) as Hknown.
  destruct (cycles_stretch env' contents' (restart c')) as (T' & HT').
  rewrite (since_app _ _ T' (st_outbox _ _ _ HT')) in Hb.
  destruct (st_fresh _ _ _ HT' b Hb) as (id' & Hid' & Hnew).
  rewrite Hbid in Hid'. injection Hid' as <-.
  apply Hnew. unfold known. change (dedup (restart c')) with (__init__ (file c')).
  rewrite Hs'. exact Hknown.
Qed.

Lemma restart_keeps_witness :
  let text := Some (plain_tag alice ++ plain_tag bob) in
  let c' := snd (cycles always_ok [text; text] fresh) in
  dedup (restart c') = dedup c'
  /\ since (restart c') (snd (cycles always_ok [text] (restart c'))) = [].
Proof.
  intros text c'.
  destruct (restart_keeps_what_was_dispatched always_ok [text; text] fresh)
    as (_ & Hsame & _).
  - reflexivity.
  - intros x Hx. now apply not_elem_of_empty in Hx.
  - intros k _. repeat split.
  - split; [exact Hsame|]. vm_compute. reflexivity.
Defined.

(** ** No exception escapes a cycle *)

Section ScalarFacts.

Lemma scalar_app (s t : pystr) :
  scalar_text (s ++ t) <-> scalar_text s /\ scalar_text t.
Proof. unfold scalar_text. rewrite forallb_app, andb_true_iff. reflexivity. Qed.

Lemma scalar_In (s : pystr) :
  scalar_text s <-> forall x, In x s -> PyStr.scalar x = true.
Proof. apply forallb_forall. Qed.



Lemma scalar_lstrip (s : pystr) : scalar_text s -> scalar_text (PyStr.lstrip s).
Proof.
  destruct (lstrip_spec s) as (ws & Heq & _). intros H.
  rewrite Heq in H. now apply scalar_app in H.
Qed.

Lemma scalar_rev (s : pystr) : scalar_text s -> scalar_text (rev s).
Proof.
  rewrite !scalar_In. intros H x Hx. apply H. now apply in_rev.
Qed.

Lemma scalar_strip (s : pystr) : scalar_text s -> scalar_text (PyStr.strip s).
Proof.
  intros H. unfold PyStr.strip, PyStr.rstrip.
  now apply scalar_rev, scalar_lstrip, scalar_rev, scalar_lstrip.
Qed.


Lemma scalar_fragments (text : pystr) (fs : list fragment) :
  scan text fs -> scalar_text text ->
  forall f, f ∈ fs ->
            scalar_text (pc_content f) /\ scalar_text (pc_nickname f).
Proof.
  induction 1 as [|t f rest fs Ht _ IH|c s fs _ _ IH]; intros Htext f' Hin.
  - inversion Hin.
  - apply scalar_app in Htext as [Hhd Hrest].
    apply elem_of_cons in Hin as [->|Hin]; [|now apply IH].
    destruct Ht as [ws1 ws2 ws3 f _ _ _ _ _ _ _]. unfold render_tag in Hhd.
    repeat (apply scalar_app in Hhd as [? Hhd]). auto.
  - apply IH; [|exact Hin].
    change (c :: s) with ([c] ++ s) in Htext. now apply scalar_app in Htext.
Qed.



End ScalarFacts.

Section NoRaise.
Variable env : oracle.



End NoRaise.



(** ** Decoding the dump *)

Section BitFacts.

Lemma lor_high (a y k : Z) :
  0 <= k -> 0 <= y < 2 ^ k -> Z.lor (a * 2 ^ k) y = a * 2 ^ k + y.
Proof.
  intros Hk Hy.
  assert (Hland : Z.land (a * 2 ^ k) y = 0).
  { apply Z.bits_inj'. intros n Hn. rewrite Z.land_spec, Z.bits_0.
    destruct (Z.lt_ge_cases n k).
    - now rewrite Z.mul_pow2_bits_low by lia.
    - rewrite <- (Z.mod_small y (2 ^ k)) by lia.
      rewrite Z.mod_pow2_bits_high by lia. apply andb_false_r. }
  rewrite <- Z.lxor_lor by exact Hland.
  symmetry. now apply Z.add_nocarry_lxor.
Qed.

Lemma lor_shiftl (a y k : Z) :
  0 <= k -> 0 <= y < 2 ^ k -> Z.lor (Z.shiftl a k) y = a * 2 ^ k + y.
Proof. intros Hk Hy. rewrite Z.shiftl_mul_pow2 by lia. now apply lor_high. Qed.

Lemma land_low (x k : Z) : 0 <= k -> Z.land x (Z.ones k) = x mod 2 ^ k.
Proof. intros. now apply Z.land_ones. Qed.

Lemma between_spec (lo hi b : Z) :
  Utf8.between lo hi b = true <-> lo <= b <= hi.
Proof. unfold Utf8.between. rewrite andb_true_iff, !Z.leb_le. reflexivity. Qed.

Lemma cont_spec (b : Z) : Utf8.cont b = true <-> 0x80 <= b <= 0xBF.
Proof. unfold Utf8.cont. rewrite andb_true_iff, !Z.leb_le. reflexivity. Qed.

Lemma scalar_of_Z (v : Z) :
  0 <= v -> v < 0xD800 \/ 0xDFFF < v < 0x110000 ->
  PyStr.scalar (Z.to_N v) = true.
Proof.
  intros Hv Hr. unfold PyStr.scalar. apply orb_true_iff.
  destruct Hr as [Hr|Hr]; [left|right].
  - apply N.ltb_lt. lia.
  - apply andb_true_iff. split; apply N.ltb_lt; lia.
Qed.

End BitFacts.

Ltac masks :=
  change 0x3F with (Z.ones 6) in *; change 0x1F with (Z.ones 5) in *;
  change 0x0F with (Z.ones 4) in *; change 0x07 with (Z.ones 3) in *;
  rewrite ?land_low in * by lia;
  change (2 ^ 6) with 64 in *; change (2 ^ 5) with 32 in *;
  change (2 ^ 4) with 16 in *; change (2 ^ 3) with 8 in *.

Section DecodeFacts.

Lemma decode_one_scalar (bs : pybytes) (c : N) (len : nat) :
  Utf8.decode_one bs = Some (c, len) ->
  PyStr.scalar c = true /\ (1 <= len <= 4)%nat.
Proof.
  unfold Utf8.decode_one. destruct bs as [|b0 r0]; [discriminate|].
  destruct (Utf8.between 0 127 b0) eqn:G1.
  { intros [= <- <-]. apply between_spec in G1.
    split; [apply scalar_of_Z; lia | lia]. }
  destruct (Utf8.between 194 223 b0) eqn:G2.
  { destruct r0 as [|b1 r1]; [discriminate|].
    destruct (Utf8.cont b1) eqn:C1; [|discriminate].
    intros [= <- <-]. apply between_spec in G2. apply cont_spec in C1.
    split; [|lia]. masks.
    rewrite lor_shiftl by (try lia; apply Z.mod_pos_bound; lia).
    apply scalar_of_Z; Z.div_mod_to_equations; lia. }
  destruct (Utf8.between 224 239 b0) eqn:G3.
  { destruct r0 as [|b1 [|b2 r2]]; try discriminate.
    destruct (Utf8.between _ _ b1 && Utf8.cont b2) eqn:C12; [|discriminate].
    intros [= <- <-]. apply between_spec in G3.
    apply andb_true_iff in C12 as [C1 C2].
    apply between_spec in C1. apply cont_spec in C2.
    split; [|lia]. masks.
    rewrite (lor_shiftl (b1 mod 64)) by (try lia; apply Z.mod_pos_bound; lia).
    rewrite lor_shiftl by (try lia; Z.div_mod_to_equations; lia).
    change (2 ^ 12) with 4096.
    destruct (Z.eqb_spec b0 224), (Z.eqb_spec b0 237);
      apply scalar_of_Z; Z.div_mod_to_equations; lia. }
  destruct (Utf8.between 240 244 b0) eqn:G4; [|discriminate].
  destruct r0 as [|b1 [|b2 [|b3 r3]]]; try discriminate.
  destruct (Utf8.between _ _ b1 && Utf8.cont b2 && Utf8.cont b3) eqn:C123;
    [|discriminate].
  intros [= <- <-]. apply between_spec in G4.
  apply andb_true_iff in C123 as [C12 C3].
  apply andb_true_iff in C12 as [C1 C2].
  apply between_spec in C1. apply cont_spec in C2. apply cont_spec in C3.
  split; [|lia]. masks.
  rewrite (lor_shiftl (b2 mod 64)) by (try lia; apply Z.mod_pos_bound; lia).
  rewrite (lor_shiftl (b1 mod 64)) by (try lia; Z.div_mod_to_equations; lia).
  rewrite lor_shiftl by (try lia; Z.div_mod_to_equations; lia).
  change (2 ^ 12) with 4096. change (2 ^ 18) with 262144.
  destruct (Z.eqb_spec b0 240), (Z.eqb_spec b0 244);
    apply scalar_of_Z; Z.div_mod_to_equations; lia.
Qed.

Lemma decode_from_cons (skip : nat) (b : Z) (bs : pybytes) :
  Utf8.decode_from skip (b :: bs)
  = match skip with
    | S n => Utf8.decode_from n bs
    | O =>
        match Utf8.decode_one (b :: bs) with
        | Some (c, len) => c :: Utf8.decode_from (len - 1) bs
        | None => Utf8.decode_from 0 bs
        end
    end.
Proof. reflexivity. Qed.

Lemma decode_from_scalar (bs : pybytes) (skip : nat) :
  scalar_text (Utf8.decode_from skip bs).
Proof.
  revert skip. induction bs as [|b bs IH]; intros skip; [reflexivity|].
  rewrite decode_from_cons. destruct skip as [|n]; [|apply IH].
  destruct (Utf8.decode_one (b :: bs)) as [[c len]|] eqn:Hd; [|apply IH].
  apply decode_one_scalar in Hd as [Hc _].
  unfold scalar_text. simpl. rewrite Hc. apply IH.
Qed.

Lemma between_true (lo hi b : Z) :
  lo <= b <= hi -> Utf8.between lo hi b = true.
Proof. apply between_spec. Qed.

Lemma between_false (lo hi b : Z) :
  b < lo \/ hi < b -> Utf8.between lo hi b = false.
Proof.
  intros H. destruct (Utf8.between lo hi b) eqn:E; [|reflexivity].
  apply between_spec in E. lia.
Qed.

Lemma cont_true (b : Z) : 0x80 <= b <= 0xBF -> Utf8.cont b = true.
Proof. apply cont_spec. Qed.

Ltac arith := Z.div_mod_to_equations; lia.

Ltac guards :=
  repeat match goal with
         | |- context [Utf8.between ?lo ?hi ?b] =>
             first [ rewrite (between_true lo hi b) by arith
                   | rewrite (between_false lo hi b) by arith ]
         | |- context [Utf8.cont ?b] => rewrite (cont_true b) by arith
         end.

Lemma lor_const (h a k y : Z) :
  h = a * 2 ^ k -> 0 <= k -> 0 <= y < 2 ^ k -> Z.lor h y = h + y.
Proof. intros -> Hk Hy. now apply lor_high. Qed.

Lemma decode_one_1 (b0 : Z) (rest : pybytes) :
  0 <= b0 <= 127 -> Utf8.decode_one (b0 :: rest) = Some (Z.to_N b0, 1%nat).
Proof. intros H. unfold Utf8.decode_one. now guards. Qed.

Lemma decode_one_2 (b0 b1 : Z) (rest : pybytes) :
  194 <= b0 <= 223 -> 128 <= b1 <= 191 ->
  Utf8.decode_one (b0 :: b1 :: rest)
  = Some (Z.to_N ((b0 - 192) * 64 + (b1 - 128)), 2%nat).
Proof.
  intros H0 H1. unfold Utf8.decode_one. guards. masks.
  rewrite lor_shiftl by arith. change (2 ^ 6) with 64.
  do 3 f_equal. arith.
Qed.

Lemma decode_one_3 (b0 b1 b2 : Z) (rest : pybytes) :
  224 <= b0 <= 239 -> 128 <= b1 <= 191 -> 128 <= b2 <= 191 ->
  (b0 = 224 -> 160 <= b1) -> (b0 = 237 -> b1 <= 159) ->
  Utf8.decode_one (b0 :: b1 :: b2 :: rest)
  = Some (Z.to_N ((b0 - 224) * 4096 + (b1 - 128) * 64 + (b2 - 128)), 3%nat).
Proof.
  intros H0 H1 H2 Hlo Hhi. unfold Utf8.decode_one.
  destruct (Z.eqb_spec b0 224), (Z.eqb_spec b0 237); try (exfalso; lia);
    guards; simpl andb; cbv iota; masks;
    rewrite (lor_shiftl (b1 mod 64)) by arith;
    rewrite lor_shiftl by arith;
    change (2 ^ 6) with 64; change (2 ^ 12) with 4096;
    do 3 f_equal; arith.
Qed.

Lemma decode_one_4 (b0 b1 b2 b3 : Z) (rest : pybytes) :
  240 <= b0 <= 244 -> 128 <= b1 <= 191 -> 128 <= b2 <= 191 ->
  128 <= b3 <= 191 ->
  (b0 = 240 -> 144 <= b1) -> (b0 = 244 -> b1 <= 143) ->
  Utf8.decode_one (b0 :: b1 :: b2 :: b3 :: rest)
  = Some (Z.to_N ((b0 - 240) * 262144 + (b1 - 128) * 4096
                  + (b2 - 128) * 64 + (b3 - 128)), 4%nat).
Proof.
  intros H0 H1 H2 H3 Hlo Hhi. unfold Utf8.decode_one.
  destruct (Z.eqb_spec b0 240), (Z.eqb_spec b0 244); try (exfalso; lia);
    guards; simpl andb; cbv iota; masks;
    rewrite (lor_shiftl (b2 mod 64)) by arith;
    rewrite (lor_shiftl (b1 mod 64)) by arith;
    rewrite lor_shiftl by arith;
    change (2 ^ 6) with 64; change (2 ^ 12) with 4096;
    change (2 ^ 18) with 262144;
    do 3 f_equal; arith.
Qed.

Lemma decode_one_encoded (c : N) (b rest : pybytes) :
  PyStr.utf8_char c = Some b ->
  Utf8.decode_one (b ++ rest) = Some (c, length b) /\ b <> [].
Proof.
  unfold PyStr.utf8_char. cbv zeta.
  pose proof (N2Z.is_nonneg c) as Hc. remember (Z.of_N c) as z eqn:Hz.
  assert (Hback : forall v, v = z -> Z.to_N v = c)
    by (intros v ->; subst z; apply N2Z.id).
  destruct (Z.ltb_spec z 0x80).
  { intros [= <-]. split; [|discriminate]. simpl app.
    rewrite decode_one_1 by lia. now rewrite (Hback z). }
  destruct (Z.ltb_spec z 0x800).
  { intros [= <-]. split; [|discriminate]. masks.
    rewrite Z.shiftr_div_pow2 by lia. change (2 ^ 6) with 64.
    rewrite (lor_const 0xC0 3 6) by (try reflexivity; arith).
    rewrite (lor_const 0x80 2 6) by (try reflexivity; arith).
    simpl app. rewrite decode_one_2 by arith.
    simpl length. do 2 f_equal. apply Hback. arith. }
  destruct (Z.leb_spec 0xD800 z), (Z.leb_spec z 0xDFFF); simpl andb;
    cbv iota; try discriminate.
  all: destruct (Z.ltb_spec z 0x10000).
  all: try (destruct (Z.ltb_spec z 0x110000); [|discriminate]).
  all: intros [= <-]; (split; [|discriminate]); masks;
    rewrite ?Z.shiftr_div_pow2 by lia;
    change (2 ^ 6) with 64; change (2 ^ 12) with 4096;
    change (2 ^ 18) with 262144.
  all: try (rewrite (lor_const 0xE0 14 4) by (try reflexivity; arith);
            rewrite !(lor_const 0x80 2 6) by (try reflexivity; arith);
            simpl app; rewrite decode_one_3 by arith;
            simpl length; do 2 f_equal; apply Hback; arith).
  all: rewrite (lor_const 0xF0 30 3) by (try reflexivity; arith);
       rewrite !(lor_const 0x80 2 6) by (try reflexivity; arith);
       simpl app; rewrite decode_one_4 by arith;
       simpl length; do 2 f_equal; apply Hback; arith.
Qed.

Lemma decode_from_skip (w rest : pybytes) :
  Utf8.decode_from (length w) (w ++ rest) = Utf8.decode_from 0 rest.
Proof. induction w as [|x w IH]; [reflexivity|]. simpl app. exact IH. Qed.

Lemma decode_encoded (s : pystr) (bs : pybytes) :
  PyStr.encode_utf8 s = Some bs -> Utf8.decode_ignore bs = s.
Proof.
  unfold Utf8.decode_ignore. revert bs.
  induction s as [|c s IH]; intros bs; simpl.
  - now intros [= <-].
  - destruct (PyStr.utf8_char c) as [b|] eqn:Hb; [|discriminate].
    destruct (PyStr.encode_utf8 s) as [bs'|]; [|discriminate].
    intros [= <-].
    destruct (decode_one_encoded c b bs' Hb) as [Hd Hne].
    destruct b as [|x w]; [contradiction|].
    simpl app in *. rewrite decode_from_cons, Hd. f_equal.
    replace (length (x :: w) - 1)%nat with (length w) by (simpl; lia).
    rewrite decode_from_skip. now apply IH.
Qed.

End DecodeFacts.


(** X8.  Bytes that are the UTF-8 encoding of a text decode to that text:
    [read_text_content] inverts [str.encode('utf-8')]. *)
Theorem read_text_content_inverts_encode (s : pystr) (raw : pybytes) :
  PyStr.encode_utf8 s = Some raw ->
  MMKVMessages.read_text_content (Some raw) = Some s.
Proof. intros Hs. simpl. f_equal. now apply decode_encoded. Qed.

Lemma read_text_content_inverts_witness :
  MMKVMessages.read_text_content (Some [0xE7; 0xBE; 0xA4; 0xE8; 0x81; 0x8A])
  = Some group_sentinel_cn.
Proof. apply read_text_content_inverts_encode. reflexivity. Defined.

(** Invalid bytes are dropped: an encoded surrogate and a stray [FF]. *)
Example read_text_content_drops_invalid :
  MMKVMessages.read_text_content
    (Some [0xE7; 0xBE; 0xA4; 0xED; 0xA0; 0x80; 0xE8; 0x81; 0x8A; 0xFF; 0x41])
  = Some (group_sentinel_cn ++ PyStr.lit "A").
Proof. reflexivity. Qed.

(** ** The reader's message list *)

Section MessageListFacts.
Import MMKVMessages.

(** The loop body classifies as [_parse_message] does. *)
Lemma parse_message_at_classifies (now : Z) (total i : nat) (pc : fragment) m :
  parse_message_at now total i pc = Ok m ->
  exists msg,
    _parse_message pc = Some msg
    /\ msg_sender msg = sender m
    /\ msg_content msg = content m
    /\ msg_is_group msg = is_group m.
Proof.
  unfold parse_message_at, _parse_message. cbv zeta.
  destruct (PyStr.encode_utf8 _) as [bs|]; [|
    repeat match goal with
           | |- context [if ?b then _ else _] => destruct b
           end; discriminate ].
  destruct (_ || _); destruct (PyStr.contains separator (pc_content pc));
    try destruct (1 <? length _)%nat;
    intros [= <-]; eexists; (split; [reflexivity|]); simpl; auto.
Qed.

Lemma parse_message_at_fields (now : Z) (total i : nat) (pc : fragment) m :
  parse_message_at now total i pc = Ok m ->
  msg_create_time m = now - (Z.of_nat total - Z.of_nat i)
  /\ raw_xml m = Some (render_tag [32%N] [32%N] [32%N] pc)
  /\ group_name m = None
  /\ length (message_svr_id m) = 32%nat.
Proof.
  unfold parse_message_at. cbv zeta.
  destruct (PyStr.encode_utf8 _) as [bs|]; [|
    repeat match goal with
           | |- context [if ?b then _ else _] => destruct b
           end; discriminate ].
  destruct (_ || _); destruct (PyStr.contains separator (pc_content pc));
    try destruct (1 <? length _)%nat;
    intros [= <-]; simpl; (split; [reflexivity|]);
    (split; [reflexivity|]); (split; [reflexivity|]);
    exact (hexdigest_length bs).
Qed.

Lemma parse_from_spec (clock : nat -> Z) (total : nat) (pcs : list fragment) :
  forall i msgs,
    parse_from clock total i pcs = Ok msgs ->
    length msgs = length pcs
    /\ forall k pc,
         pcs !! k = Some pc ->
         exists m,
           msgs !! k = Some m
           /\ parse_message_at (clock (i + k)%nat) total (i + k) pc = Ok m.
Proof.
  induction pcs as [|pc pcs IH]; intros i msgs; simpl.
  - intros [= <-]. split; [reflexivity|]. intros k pc' Hk. inversion Hk.
  - destruct (parse_message_at (clock i) total i pc) as [m|e] eqn:Hm;
      [|discriminate].
    destruct (parse_from clock total (S i) pcs) as [ms|e] eqn:Hrest;
      [|discriminate].
    intros [= <-]. destruct (IH _ _ Hrest) as [Hlen Hk].
    split; [simpl; now rewrite Hlen|].
    intros [|k] pc' Hpc'; simpl in Hpc'.
    + injection Hpc' as <-. exists m. rewrite Nat.add_0_r. auto.
    + destruct (Hk k pc' Hpc') as (m' & Hm' & Hat).
      exists m'. split; [exact Hm'|].
      now replace (i + S k)%nat with (S i + k)%nat by lia.
Qed.

Lemma parse_from_classifies (clock : nat -> Z) (total : nat)
    (pcs : list fragment) :
  forall i msgs,
    parse_from clock total i pcs = Ok msgs ->
    List.map (fun m => (sender m, content m, is_group m)) msgs
    = List.map (fun msg => (msg_sender msg, msg_content msg, msg_is_group msg))
        (omap _parse_message pcs).
Proof.
  induction pcs as [|pc pcs IH]; intros i msgs; simpl.
  - now intros [= <-].
  - destruct (parse_message_at (clock i) total i pc) as [m|e] eqn:Hm;
      [|discriminate].
    destruct (parse_from clock total (S i) pcs) as [ms|e] eqn:Hrest;
      [|discriminate].
    intros [= <-].
    destruct (parse_message_at_classifies _ _ _ _ _ Hm)
      as (msg & -> & Hs & Hc & Hg).
    simpl. rewrite Hs, Hc, Hg. f_equal. exact (IH _ _ Hrest).
Qed.

Lemma parse_from_returns (clock : nat -> Z) (total : nat)
    (pcs : list fragment) (i : nat) :
  (forall f, f ∈ pcs ->
             scalar_text (pc_content f) /\ scalar_text (pc_nickname f)) ->
  exists msgs, parse_from clock total i pcs = Ok msgs.
Proof.
  revert i. induction pcs as [|pc pcs IH]; intros i Hall; simpl; [eauto|].
  destruct (Hall pc (list_elem_of_here _ _)) as [Hc Hn].
  assert (Hat : exists m, parse_message_at (clock i) total i pc = Ok m).
  { unfold parse_message_at. cbv zeta.
    destruct (encode_utf8_scalar
                (PyStr.strip (pc_nickname pc) ++ PyStr.lit ":" ++ pc_content pc))
      as [bs ->].
    - fold (scalar_text (PyStr.strip (pc_nickname pc) ++ PyStr.lit ":"
                           ++ pc_content pc)).
      apply scalar_app. split; [now apply scalar_strip|].
      apply scalar_app. split; [reflexivity | exact Hc].
    - destruct (_ || _); destruct (PyStr.contains separator (pc_content pc));
        try destruct (1 <? length _)%nat; eauto. }
  destruct Hat as [m ->].
  destruct (IH (S i)) as [ms ->]; [|eauto].
  intros f Hf. apply Hall. now apply list_elem_of_further.
Qed.

Lemma quote_free_fragments (text : pystr) (fs : list fragment) :
  scan text fs ->
  forall f, f ∈ fs -> quote_free (pc_content f) /\ quote_free (pc_nickname f).
Proof.
  induction 1 as [|t f rest fs Ht _ IH|c s fs _ _ IH]; intros f' Hin.
  - inversion Hin.
  - apply elem_of_cons in Hin as [->|Hin]; [|now apply IH].
    destruct Ht as [ws1 ws2 ws3 f _ _ _ _ _ Hc Hn]. auto.
  - now apply IH.
Qed.

Lemma reader_extract_eq (text : pystr) :
  MMKVReader.extract_pushcontent text = _extract_pushcontent text.
Proof. reflexivity. Qed.

Lemma raw_xml_extracts (pc : fragment) :
  quote_free (pc_content pc) -> quote_free (pc_nickname pc) ->
  MMKVReader.extract_pushcontent (render_tag [32%N] [32%N] [32%N] pc) = [pc].
Proof.
  intros Hc Hn.
  rewrite reader_extract_eq.
  rewrite <- (app_nil_r (render_tag _ _ _ pc)).
  rewrite (extract_tag _ pc []); [reflexivity|].
  apply tag_text_intro; try discriminate; try reflexivity; assumption.
Qed.

End MessageListFacts.

(** X9.  The two classifiers agree: the messages [parse_messages] returns
    have, one for one and in order, the sender, the content and the group
    flag that the connector's [_parse_message] gives the fragments of the
    same text. *)
Theorem parse_messages_agrees_with_connector
    (clock : nat -> Z) (text : pystr) (msgs : list MMKVMessages.MMKVMessage) :
  MMKVMessages.parse_messages clock text = Ok msgs ->
  List.map (fun m => (MMKVMessages.sender m, MMKVMessages.content m,
                      MMKVMessages.is_group m)) msgs
  = List.map (fun msg => (msg_sender msg, msg_content msg, msg_is_group msg))
      (messages_of text).
Proof.
  unfold MMKVMessages.parse_messages, messages_of. cbv zeta.
  apply parse_from_classifies.
Qed.

Lemma parse_messages_agrees_witness :
  exists msgs,
    MMKVMessages.parse_messages (fun _ => 1771419349)
      (plain_tag alice ++ malformed_tag ++ plain_tag bob) = Ok msgs
    /\ List.map (fun m => (MMKVMessages.sender m, MMKVMessages.content m,
                           MMKVMessages.is_group m)) msgs
       = [(PyStr.lit "Alice", PyStr.lit "hi", true);
          (PyStr.lit "Bob", PyStr.lit "hello", false)].
Proof.
  destruct (MMKVMessages.parse_messages (fun _ => 1771419349)
              (plain_tag alice ++ malformed_tag ++ plain_tag bob))
    as [msgs|e] eqn:Hrun; [|vm_compute in Hrun; discriminate].
  exists msgs. split; [reflexivity|].
  rewrite (parse_messages_agrees_with_connector _ _ _ Hrun).
  vm_compute. reflexivity.
Defined.

(** X10.  With a clock that does not run backwards, the creation times
    [parse_messages] makes up increase strictly along the list, and each
    lies before the clock reading of its round: the message at index [i]
    of [n] is stamped [n - i] seconds before that reading. *)
Theorem parse_messages_times_increase
    (clock : nat -> Z) (text : pystr) (msgs : list MMKVMessages.MMKVMessage) :
  (forall i j, (i <= j)%nat -> clock i <= clock j) ->
  MMKVMessages.parse_messages clock text = Ok msgs ->
  (forall i m,
      msgs !! i = Some m ->
      MMKVMessages.msg_create_time m
      = clock i - (Z.of_nat (length msgs) - Z.of_nat i)
      /\ MMKVMessages.msg_create_time m < clock i)
  /\ (forall i j mi mj,
        msgs !! i = Some mi -> msgs !! j = Some mj -> (i < j)%nat ->
        MMKVMessages.msg_create_time mi < MMKVMessages.msg_create_time mj).
Proof.
  intros Hmono Hrun. unfold MMKVMessages.parse_messages in Hrun.
  cbv zeta in Hrun.
  destruct (parse_from_spec _ _ _ _ _ Hrun) as [Hlen Hat].
  assert (Htime : forall i m,
             msgs !! i = Some m ->
             MMKVMessages.msg_create_time m
             = clock i - (Z.of_nat (length msgs) - Z.of_nat i)
               /\ (i < length msgs)%nat).
  { intros i m Hm. pose proof (lookup_lt_Some _ _ _ Hm) as Hi.
    split; [|exact Hi]. rewrite Hlen in Hi.
    destruct (lookup_lt_is_Some_2 _ _ Hi) as [pc Hpc].
    destruct (Hat i pc Hpc) as (m' & Hm' & Hfields).
    rewrite Hm in Hm'. injection Hm' as <-.
    apply parse_message_at_fields in Hfields as (Ht & _).
    rewrite Ht, Hlen. reflexivity. }
  split.
  - intros i m Hm. destruct (Htime i m Hm) as [Ht Hi].
    split; [exact Ht|]. rewrite Ht. lia.
  - intros i j mi mj Hi Hj Hij.
    destruct (Htime i mi Hi) as [-> _]. destruct (Htime j mj Hj) as [-> _].
    specialize (Hmono i j). lia.
Qed.

Lemma parse_messages_times_witness :
  exists msgs,
    MMKVMessages.parse_messages (fun i => 1771419349 + Z.of_nat i)
      (plain_tag alice ++ plain_tag bob) = Ok msgs
    /\ forall i m,
         msgs !! i = Some m ->
         MMKVMessages.msg_create_time m < 1771419349 + Z.of_nat i.
Proof.
  destruct (MMKVMessages.parse_messages (fun i => 1771419349 + Z.of_nat i)
              (plain_tag alice ++ plain_tag bob))
    as [msgs|e] eqn:Hrun; [|vm_compute in Hrun; discriminate].
  exists msgs. split; [reflexivity|].
  assert (Hmono : forall i j : nat,
             (i <= j)%nat ->
             1771419349 + Z.of_nat i <= 1771419349 + Z.of_nat j)
    by (intros i j H; lia).
  destruct (parse_messages_times_increase _ _ _ Hmono Hrun) as [Hstamp _].
  intros i m Hm. exact (proj2 (Hstamp i m Hm)).
Defined.

(** X11.  The [raw_xml] of every message [parse_messages] returns is a tag
    from which [extract_pushcontent] reads back exactly the fragment the
    message was made from. *)
Theorem parse_messages_raw_xml_round_trip
    (clock : nat -> Z) (text : pystr) (msgs : list MMKVMessages.MMKVMessage) :
  MMKVMessages.parse_messages clock text = Ok msgs ->
  List.map (fun m => option_map MMKVReader.extract_pushcontent
                       (MMKVMessages.raw_xml m)) msgs
  = List.map (fun pc => Some [pc]) (MMKVReader.extract_pushcontent text).
Proof.
  unfold MMKVMessages.parse_messages. cbv zeta. intros Hrun.
  destruct (parse_from_spec _ _ _ _ _ Hrun) as [Hlen Hat].
  pose proof (quote_free_fragments text _ (extract_scan text)) as Hq.
  rewrite <- reader_extract_eq in Hq.
  apply list_eq. intros k. rewrite !list_lookup_fmap.
  destruct (MMKVReader.extract_pushcontent text !! k) as [pc|] eqn:Hpc.
  - destruct (Hat k pc Hpc) as (m & -> & Hfields). simpl.
    apply parse_message_at_fields in Hfields as (_ & -> & _). simpl.
    destruct (Hq pc) as [Hc Hn];
      [apply list_elem_of_lookup; eauto|].
    now rewrite (raw_xml_extracts pc Hc Hn).
  - apply lookup_ge_None in Hpc. rewrite <- Hlen in Hpc.
    apply lookup_ge_None in Hpc. now rewrite Hpc.
Qed.

Lemma parse_messages_raw_xml_witness :
  exists msgs,
    MMKVMessages.parse_messages (fun _ => 1771419349)
      (plain_tag alice ++ malformed_tag ++ plain_tag bob) = Ok msgs
    /\ List.map (fun m => option_map MMKVReader.extract_pushcontent
                            (MMKVMessages.raw_xml m)) msgs
       = [Some [alice]; Some [bob]].
Proof.
  destruct (MMKVMessages.parse_messages (fun _ => 1771419349)
              (plain_tag alice ++ malformed_tag ++ plain_tag bob))
    as [msgs|e] eqn:Hrun; [|vm_compute in Hrun; discriminate].
  exists msgs. split; [reflexivity|].
  rewrite (parse_messages_raw_xml_round_trip _ _ _ Hrun).
  vm_compute. reflexivity.
Defined.

(** X12.  Change detection forgets a change it could not read: after a call
    of [get_messages] for new messages under some [stat], a second such
    call under the same [stat] returns the empty list and leaves the reader
    as it is, whatever the file holds, also when the first call returned
    nothing because the read failed. *)
Theorem get_messages_same_stat_returns_nothing
    (self : MMKVReader.reader) (st : MMKVReader.file_stat)
    (raw raw' : option pybytes) (clock clock' : nat -> Z) :
  let first := MMKVMessages.get_messages true (Some st) raw clock self in
  MMKVMessages.get_messages true (Some st) raw' clock' (snd first)
  = (Ok [], snd first)
  /\ (raw = None -> fst first = Ok []).
Proof.
  intros first.
  assert (Hstate : snd first
                   = MMKVReader.Reader (Some (MMKVReader.mtime st))
                       (MMKVReader.size st)).
  { subst first. unfold MMKVMessages.get_messages.
    pose proof (has_new_content_state (Some st) self) as Hs.
    destruct (MMKVReader.has_new_content (Some st) self) as [b self'].
    simpl in Hs. subst self'.
    destruct (negb b); [reflexivity|].
    now destruct (MMKVMessages.read_text_content raw). }
  split.
  - rewrite Hstate. unfold MMKVMessages.get_messages,
      MMKVReader.has_new_content. simpl. now rewrite !Z.eqb_refl.
  - intros ->. subst first. unfold MMKVMessages.get_messages.
    destruct (MMKVReader.has_new_content (Some st) self) as [b self'].
    now destruct (negb b).
Qed.

(** X13.  [get_messages] never raises: whatever the flag, the answer of
    [stat], the bytes read and the clock, it returns a list. *)
Theorem get_messages_always_returns
    (only_new : bool) (stat : option MMKVReader.file_stat)
    (raw : option pybytes) (clock : nat -> Z) (self : MMKVReader.reader) :
  exists msgs,
    fst (MMKVMessages.get_messages only_new stat raw clock self) = Ok msgs.
Proof.
  unfold MMKVMessages.get_messages.
  destruct (if only_new then _ else _) as [unchanged self'].
  destruct unchanged; [simpl; eauto|].
  destruct raw as [bs|]; simpl; [|eauto].
  unfold MMKVMessages.parse_messages. cbv zeta.
  apply parse_from_returns.
  exact (scalar_fragments _ _ (extract_scan _) (decode_from_scalar bs 0)).
Qed.

(** ** The dedup store: reset, failed saves, hand-written files *)

Section StoreEdgeFacts.

Lemma is_processed_empty (id : pystr) : is_processed (Store ∅) id = false.
Proof. apply bool_decide_eq_false, not_elem_of_empty. Qed.

Lemma save_body_before_open (self : store) (now : pystr) (io : save_io)
    (d : disk) :
  makedirs_ok io = false \/ open_ok io = false ->
  _save self now io d = d.
Proof.
  intros H. unfold _save, save_body.
  destruct (makedirs_ok io); [|reflexivity].
  destruct H as [H|H]; [discriminate|]. now rewrite H.
Qed.

Lemma save_body_after_open (self : store) (now : pystr) (io : save_io)
    (d : disk) :
  makedirs_ok io = true -> open_ok io = true ->
  write_ok io = false \/ ~ store_encodable self ->
  _save self now io d = Bytes None.
Proof.
  intros Hd Ho H. unfold _save, save_body. rewrite Hd, Ho. simpl.
  destruct (forallb encodable (elements (_processed_ids self))) eqn:Henc;
    [|reflexivity].
  destruct H as [->|Hn]; [reflexivity|]. exfalso. apply Hn.
  intros x Hx. rewrite forallb_forall in Henc. apply Henc.
  apply list_elem_of_In, elem_of_elements, Hx.
Qed.

End StoreEdgeFacts.

(** X14.  [reset] empties the instance whatever the file system does.  If
    its save goes through, the file lists no id and a new instance built
    from it knows nothing; if the directory cannot be made or the file
    cannot be opened, the file is left as it was, so a new instance knows
    again whatever the file listed before the reset. *)
Theorem reset_forgets_everything
    (self : store) (now : pystr) (io : save_io) (d : disk) :
  let after := reset self now io d in
  (forall id, is_processed (fst after) id = false)
  /\ (makedirs_ok io = true -> open_ok io = true -> write_ok io = true ->
      persisted_ids (snd after) = Some []
      /\ forall id, is_processed (__init__ (snd after)) id = false)
  /\ (makedirs_ok io = false \/ open_ok io = false ->
      snd after = d /\ __init__ (snd after) = __init__ d).
Proof.
  intros after. subst after. unfold reset. simpl.
  split; [exact is_processed_empty|]. split.
  - intros Hd Ho Hw.
    assert (Hs : save_succeeds (Store ∅) io).
    { repeat split; try assumption. intros x Hx.
      now apply not_elem_of_empty in Hx. }
    unfold _save. rewrite (save_body_ok _ now io d Hs). simpl snd.
    rewrite persisted_document, init_document, elements_empty.
    split; [reflexivity | exact is_processed_empty].
  - intros H. rewrite (save_body_before_open _ now io d H). auto.
Qed.

Lemma reset_forgets_witness :
  let a := PyStr.lit "0301e3c9fb049ad610bf756689ff68a2" in
  let t := PyStr.lit "2026-02-18T20:55:49" in
  let marked := mark_processed (Store ∅) a t io_ok NoFile in
  let durable := reset (fst marked) t io_ok (snd marked) in
  let failed := reset (fst marked) t (SaveIO false true true) (snd marked) in
  is_processed (__init__ (snd durable)) a = false
  /\ is_processed (__init__ (snd failed)) a = true.
Proof.
  intros a t marked durable failed.
  destruct (reset_forgets_everything (fst marked) t io_ok (snd marked))
    as (_ & Hdurable & _).
  destruct (reset_forgets_everything (fst marked) t (SaveIO false true true)
              (snd marked)) as (_ & _ & Hfailed).
  split.
  - now apply Hdurable.
  - unfold failed. destruct Hfailed as [_ ->]; [now left|].
    vm_compute. reflexivity.
Defined.

(** X15.  What a failed save of [mark_processed] costs.  The id is known to
    the running instance in every case.  If the directory cannot be made or
    the file cannot be opened, the file is untouched, and a new instance
    knows what the old file listed, the new id included only if it was
    there already.  If the file was opened and the write then fails (or an
    id of the set cannot be encoded), the old content is gone: a new
    instance knows no id at all. *)
Theorem mark_processed_failed_save
    (self : store) (id now : pystr) (io : save_io) (d : disk) :
  let after := mark_processed self id now io d in
  is_processed (fst after) id = true
  /\ (forall x, is_processed self x = true -> is_processed (fst after) x = true)
  /\ (makedirs_ok io = false \/ open_ok io = false ->
      snd after = d
      /\ forall x, is_processed (__init__ (snd after)) x
                   = is_processed (__init__ d) x)
  /\ (makedirs_ok io = true -> open_ok io = true ->
      write_ok io = false \/ ~ store_encodable (fst after) ->
      snd after = Bytes None
      /\ forall x, is_processed (__init__ (snd after)) x = false).
Proof.
  intros after. subst after. unfold mark_processed. cbv zeta. simpl fst.
  simpl snd. split; [|split; [|split]].
  - apply is_processed_iff. simpl. apply elem_of_union_l, elem_of_singleton.
    reflexivity.
  - intros x Hx. apply is_processed_iff. apply is_processed_iff in Hx.
    simpl. now apply elem_of_union_r.
  - intros H. rewrite (save_body_before_open _ now io d H). auto.
  - intros Hd Ho H. rewrite (save_body_after_open _ now io d Hd Ho H).
    split; [reflexivity|]. intros x. exact (is_processed_empty x).
Qed.

Lemma mark_processed_failed_witness :
  let a := PyStr.lit "0301e3c9fb049ad610bf756689ff68a2" in
  let b := PyStr.lit "02c389d73187d8143cf9f4a49a2555b1" in
  let t := PyStr.lit "2026-02-18T20:55:49" in
  let saved := mark_processed (Store ∅) a t io_ok NoFile in
  let lost := mark_processed (fst saved) b t (SaveIO true true false)
                (snd saved) in
  is_processed (__init__ (snd saved)) a = true
  /\ is_processed (fst lost) a = true
  /\ is_processed (__init__ (snd lost)) a = false.
Proof.
  intros a b t saved lost.
  destruct (mark_processed_failed_save (fst saved) b t
              (SaveIO true true false) (snd saved))
    as (_ & Hkept & _ & Hlost).
  split; [vm_compute; reflexivity|]. split.
  - apply Hkept. vm_compute. reflexivity.
  - destruct Hlost as [_ Hnone]; [reflexivity | reflexivity | now left |].
    apply Hnone.
Defined.

(** X16.  Loading a file written by hand.  If the document is an object
    whose [processed_ids] is a list of strings, the instance knows exactly
    the listed strings, whatever their order and repetitions and whatever
    other members the object has.  If the object has no [processed_ids]
    the instance is empty without any failure.  If [processed_ids] is a
    string, the instance knows its characters, each as a one-character id,
    and nothing else. *)
Theorem load_of_hand_written_file (kv : list (pystr * json)) :
  (forall l,
      dict_get kv (PyStr.lit "processed_ids") (JArr []) = JArr (List.map JStr l) ->
      load_body (Bytes (Some (JObj kv))) = Ok (list_to_set l)
      /\ forall x, is_processed (__init__ (Bytes (Some (JObj kv)))) x = true
                   <-> x ∈ l)
  /\ ((forall k v, (k, v) ∈ kv -> k <> PyStr.lit "processed_ids") ->
      load_body (Bytes (Some (JObj kv))) = Ok ∅)
  /\ (forall s,
        dict_get kv (PyStr.lit "processed_ids") (JArr []) = JStr s ->
        forall x, is_processed (__init__ (Bytes (Some (JObj kv)))) x = true
                  <-> exists ch, ch ∈ s /\ x = [ch]).
Proof.
  split; [|split].
  - intros l Hget.
    assert (Hload : load_body (Bytes (Some (JObj kv))) = Ok (list_to_set l)).
    { unfold load_body. rewrite Hget. simpl. apply set_of_list_strs. }
    split; [exact Hload|]. intros x.
    unfold __init__, _load. simpl path_exists. cbv iota. rewrite Hload.
    rewrite is_processed_iff. simpl. apply elem_of_list_to_set.
  - intros Hnone. unfold load_body.
    replace (dict_get kv (PyStr.lit "processed_ids") (JArr [])) with (JArr []);
      [reflexivity|].
    generalize (JArr []). induction kv as [|[k v] kv IH]; intros dflt;
      [reflexivity|].
    simpl. rewrite bool_decide_eq_false_2.
    + apply IH. intros k' v' Hin. apply (Hnone k' v').
      now apply list_elem_of_further.
    + apply (Hnone k v). apply list_elem_of_here.
  - intros s Hget x. unfold __init__, _load. simpl path_exists. cbv iota.
    unfold load_body. rewrite Hget. simpl set_of.
    rewrite is_processed_iff. simpl. rewrite elem_of_list_to_set.
    rewrite list_elem_of_fmap. split.
    + intros (ch & -> & Hch). eauto.
    + intros (ch & Hch & ->). eauto.
Qed.

Lemma load_of_hand_written_witness :
  let doc :=
    [(PyStr.lit "note", JStr (PyStr.lit "edited by hand"));
     (PyStr.lit "processed_ids",
      JArr [JStr (PyStr.lit "b"); JStr (PyStr.lit "a"); JStr (PyStr.lit "b")])] in
  is_processed (__init__ (Bytes (Some (JObj doc)))) (PyStr.lit "a") = true
  /\ is_processed
       (__init__ (Bytes (Some (JObj [(PyStr.lit "processed_ids",
                                      JStr (PyStr.lit "ab"))]))))
       (PyStr.lit "ab") = false.
Proof.
  intros doc. split.
  - destruct (load_of_hand_written_file doc) as (Hlist & _ & _).
    destruct (Hlist [PyStr.lit "b"; PyStr.lit "a"; PyStr.lit "b"] eq_refl)
      as [_ Hknown].
    apply Hknown. apply list_elem_of_further, list_elem_of_here.
  - reflexivity.
Defined.

(** ** Reading the output of [stat] *)

Section FileStatFacts.
Import FileStat.
Variable py_int : pystr -> option Z.
Variable timestamp_of : pystr -> option Z.

Local Abbreviation read_line := (read_line py_int timestamp_of).
Local Abbreviation read_lines := (read_lines py_int timestamp_of).

Lemma read_line_raises (line : pystr) (stat : partial) e :
  read_line line stat = Raise e ->
  e = ValueError /\ bad_size_line py_int line.
Proof.
  unfold FileStat.read_line, bad_size_line. cbv zeta.
  destruct (PyStr.contains (PyStr.lit "Size:") line).
  - destruct (2 <=? length (split_ws line))%nat eqn:Hlen; [|discriminate].
    destruct (py_int _) eqn:Hint; [discriminate|].
    intros [= <-]. apply Nat.leb_le in Hlen. auto.
  - destruct (PyStr.contains (PyStr.lit "Modify:") line); [|discriminate].
    destruct (timestamp_of _); discriminate.
Qed.

Lemma read_line_bad (line : pystr) (stat : partial) :
  bad_size_line py_int line -> read_line line stat = Raise ValueError.
Proof.
  intros (Hc & Hlen & Hint). unfold FileStat.read_line. cbv zeta.
  rewrite Hc, (proj2 (Nat.leb_le _ _) Hlen), Hint. reflexivity.
Qed.

Lemma read_lines_bad (lines : list pystr) (stat : partial) :
  (exists line, line ∈ lines /\ bad_size_line py_int line) ->
  read_lines lines stat = Raise ValueError.
Proof.
  revert stat. induction lines as [|l lines IH]; intros stat (line & Hin & Hbad).
  - inversion Hin.
  - simpl. apply elem_of_cons in Hin as [->|Hin].
    + now rewrite read_line_bad.
    + destruct (read_line l stat) as [stat'|e] eqn:Hl.
      * apply IH. eauto.
      * now apply read_line_raises in Hl as [-> _].
Qed.

(** What one line can add to the dict. *)
Lemma read_line_ok (line : pystr) (stat stat' : partial) :
  read_line line stat = Ok stat' ->
  (p_size stat' = p_size stat
   \/ exists n, p_size stat' = Some n /\ size_line py_int line n)
  /\ (p_mtime stat' = p_mtime stat
      \/ exists t, p_mtime stat' = Some t /\ modify_line timestamp_of line t).
Proof.
  unfold FileStat.read_line, size_line, modify_line. cbv zeta.
  destruct (PyStr.contains (PyStr.lit "Size:") line) eqn:Hs.
  - destruct (2 <=? length (split_ws line))%nat eqn:Hlen.
    + destruct (py_int _) as [n|] eqn:Hint; [|discriminate].
      intros [= <-]. simpl. apply Nat.leb_le in Hlen. split; [right|left]; eauto.
    + intros [= <-]. auto.
  - destruct (PyStr.contains (PyStr.lit "Modify:") line) eqn:Hm.
    + destruct (timestamp_of _) as [t|] eqn:Ht.
      * intros [= <-]. simpl. split; [left|right]; eauto.
      * intros [= <-]. auto.
    + intros [= <-]. auto.
Qed.

Lemma read_lines_ok (lines : list pystr) (stat stat' : partial) :
  read_lines lines stat = Ok stat' ->
  (p_size stat' = p_size stat
   \/ exists n line, p_size stat' = Some n /\ line ∈ lines
                     /\ size_line py_int line n)
  /\ (p_mtime stat' = p_mtime stat
      \/ exists t line, p_mtime stat' = Some t /\ line ∈ lines
                        /\ modify_line timestamp_of line t).
Proof.
  revert stat. induction lines as [|l lines IH]; intros stat; simpl.
  - intros [= <-]. auto.
  - destruct (read_line l stat) as [stat1|e] eqn:Hl; [|discriminate].
    intros Hrest. destruct (IH _ Hrest) as [Hs Hm].
    destruct (read_line_ok _ _ _ Hl) as [Hs1 Hm1]. split.
    + destruct Hs as [Hs|(n & line & Hn & Hin & Hline)].
      * rewrite Hs. destruct Hs1 as [Hs1|(n & Hn & Hline)]; [now left|].
        right. exists n, l. split; [exact Hn|].
        split; [apply list_elem_of_here | exact Hline].
      * right. exists n, line. split; [exact Hn|].
        split; [now apply list_elem_of_further | exact Hline].
    + destruct Hm as [Hm|(t & line & Ht & Hin & Hline)].
      * rewrite Hm. destruct Hm1 as [Hm1|(t & Ht & Hline)]; [now left|].
        right. exists t, l. split; [exact Ht|].
        split; [apply list_elem_of_here | exact Hline].
      * right. exists t, line. split; [exact Ht|].
        split; [now apply list_elem_of_further | exact Hline].
Qed.


Lemma read_lines_raises (lines : list pystr) (stat : partial) e :
  read_lines lines stat = Raise e ->
  exists line, line ∈ lines /\ bad_size_line py_int line.
Proof.
  revert stat. induction lines as [|l lines IH]; intros stat; simpl.
  - discriminate.
  - destruct (read_line l stat) as [stat1|e1] eqn:Hl.
    + intros Hrest. destruct (IH _ Hrest) as (line & Hin & Hbad).
      exists line. split; [now apply list_elem_of_further | exact Hbad].
    + intros _. apply read_line_raises in Hl as [_ Hbad].
      exists l. split; [apply list_elem_of_here | exact Hbad].
Qed.

(** A key that is set stays set. *)
Lemma read_lines_keeps (lines : list pystr) (stat stat' : partial) :
  read_lines lines stat = Ok stat' ->
  (p_size stat <> None -> p_size stat' <> None)
  /\ (p_mtime stat <> None -> p_mtime stat' <> None).
Proof.
  intros Hok. destruct (read_lines_ok _ _ _ Hok) as [Hs Hm]. split.
  - destruct Hs as [->|(n & _ & -> & _)]; [auto | discriminate].
  - destruct Hm as [->|(t & _ & -> & _)]; [auto | discriminate].
Qed.

Lemma read_lines_sets (lines : list pystr) (stat stat' : partial) :
  read_lines lines stat = Ok stat' ->
  ((exists line n, line ∈ lines /\ size_line py_int line n) ->
   p_size stat' <> None)
  /\ ((exists line t, line ∈ lines /\ modify_line timestamp_of line t) ->
      p_mtime stat' <> None).
Proof.
  revert stat. induction lines as [|l lines IH]; intros stat; simpl.
  - intros _. split; intros (line & ? & Hin & _); inversion Hin.
  - destruct (read_line l stat) as [stat1|e] eqn:Hl; [|discriminate].
    intros Hrest. destruct (IH _ Hrest) as [Hs Hm].
    destruct (read_lines_keeps _ _ _ Hrest) as [Ks Km]. split.
    + intros (line & n & Hin & Hline).
      apply elem_of_cons in Hin as [->|Hin]; [|apply Hs; eauto].
      apply Ks. destruct Hline as (Hc & Hlen & Hint).
      unfold FileStat.read_line in Hl. cbv zeta in Hl.
      rewrite Hc, (proj2 (Nat.leb_le _ _) Hlen), Hint in Hl.
      injection Hl as <-. discriminate.
    + intros (line & t & Hin & Hline).
      apply elem_of_cons in Hin as [->|Hin]; [|apply Hm; eauto].
      apply Km. destruct Hline as (Hc & Hmod & Ht).
      unfold FileStat.read_line in Hl. cbv zeta in Hl.
      rewrite Hc, Hmod, Ht in Hl. injection Hl as <-. discriminate.
Qed.

End FileStatFacts.

(** X17.  [get_file_stat] returns None in exactly four cases: the command
    failed; some line holds [Size:], has two fields or more and a second
    field that is no integer (wherever the line stands, and whatever the
    other lines say); no line sets the size; no line sets the modification
    time.  A [Modify:] line whose time cannot be read is passed over and
    counts as absent. *)
Theorem get_file_stat_none_iff (py_int timestamp_of : pystr -> option Z)
    (success : bool) (output : pystr) :
  FileStat.get_file_stat py_int timestamp_of success output = None
  <-> (success = false
       \/ (exists line, line ∈ FileStat.split_char 10%N output
                        /\ bad_size_line py_int line)
       \/ (forall line n, line ∈ FileStat.split_char 10%N output ->
                          ~ size_line py_int line n)
       \/ (forall line t, line ∈ FileStat.split_char 10%N output ->
                          ~ modify_line timestamp_of line t)).
Proof.
  unfold FileStat.get_file_stat. split.
  - destruct success; simpl; [|auto].
    destruct (FileStat.read_lines _ _ _ _) as [[[n|] [t|]]|e] eqn:Hrun;
      try discriminate; intros _; right.
    + right; right. intros line t Hin Hline.
      destruct (read_lines_sets _ _ _ _ _ Hrun) as [_ Hm].
      apply Hm; [eauto | reflexivity].
    + right; left. intros line n Hin Hline.
      destruct (read_lines_sets _ _ _ _ _ Hrun) as [Hs _].
      apply Hs; [eauto | reflexivity].
    + right; left. intros line n Hin Hline.
      destruct (read_lines_sets _ _ _ _ _ Hrun) as [Hs _].
      apply Hs; [eauto | reflexivity].
    + left. exact (read_lines_raises _ _ _ _ _ Hrun).
  - intros [->|[Hbad|[Hno|Hno]]]; [reflexivity|..];
      destruct success; simpl; try reflexivity.
    + now rewrite (read_lines_bad _ _ _ (FileStat.Partial None None) Hbad).
    + destruct (FileStat.read_lines _ _ _ _) as [[[n|] [t|]]|e] eqn:Hrun;
        try reflexivity.
      destruct (read_lines_ok _ _ _ _ _ Hrun) as [[Hs|(n' & l & _ & Hin & Hl)] _].
      * discriminate.
      * destruct (Hno _ _ Hin Hl).
    + destruct (FileStat.read_lines _ _ _ _) as [[[n|] [t|]]|e] eqn:Hrun;
        try reflexivity.
      destruct (read_lines_ok _ _ _ _ _ Hrun) as [_ [Hm|(t' & l & _ & Hin & Hl)]].
      * discriminate.
      * destruct (Hno _ _ Hin Hl).
Qed.

(** X18.  What [get_file_stat] returns was read from the output: the size
    is the integer in the second field of a line that holds [Size:], and
    the time is the stamp of a line that holds [Modify:] and not [Size:];
    the command succeeded and every [Size:] line with two fields could be
    read. *)
Theorem get_file_stat_reports_lines (py_int timestamp_of : pystr -> option Z)
    (success : bool) (output : pystr) (st : MMKVReader.file_stat) :
  FileStat.get_file_stat py_int timestamp_of success output = Some st ->
  success = true
  /\ (exists line, line ∈ FileStat.split_char 10%N output
                   /\ size_line py_int line (MMKVReader.size st))
  /\ (exists line, line ∈ FileStat.split_char 10%N output
                   /\ modify_line timestamp_of line (MMKVReader.mtime st))
  /\ (forall line, line ∈ FileStat.split_char 10%N output ->
                   PyStr.contains (PyStr.lit "Size:") line = true ->
                   (2 <= length (FileStat.split_ws line))%nat ->
                   exists n, py_int (PyStr.item (FileStat.split_ws line) 1)
                             = Some n).
Proof.
  unfold FileStat.get_file_stat. destruct success; simpl; [|discriminate].
  destruct (FileStat.read_lines _ _ _ _) as [[[n|] [t|]]|e] eqn:Hrun;
    try discriminate.
  intros [= <-]. simpl.
  destruct (read_lines_ok _ _ _ _ _ Hrun) as [Hs Hm]. simpl in Hs, Hm.
  split; [reflexivity|]. split; [|split].
  - destruct Hs as [Hs|(n' & l & [= <-] & Hin & Hl)]; [discriminate|]. eauto.
  - destruct Hm as [Hm|(t' & l & [= <-] & Hin & Hl)]; [discriminate|]. eauto.
  - intros line Hin Hc Hlen.
    destruct (py_int (PyStr.item (FileStat.split_ws line) 1)) as [k|] eqn:Hint;
      [eauto|].
    assert (Hbad : exists l, l ∈ FileStat.split_char 10%N output
                             /\ bad_size_line py_int l).
    { exists line. split; [exact Hin|]. repeat split; assumption. }
    rewrite (read_lines_bad _ _ _ (FileStat.Partial None None) Hbad) in Hrun.
    discriminate.
Qed.

Lemma get_file_stat_reports_witness :
  FileStat.get_file_stat int_of_field timestamp_of_field true stat_output
  = Some (MMKVReader.FileStat 1771419349 131072)
  /\ exists line, line ∈ FileStat.split_char 10%N stat_output
                  /\ size_line int_of_field line 131072.
Proof.
  assert (H : FileStat.get_file_stat int_of_field timestamp_of_field true
                stat_output
              = Some (MMKVReader.FileStat 1771419349 131072))
    by (vm_compute; reflexivity).
  split; [exact H|].
  exact (proj1 (proj2 (get_file_stat_reports_lines _ _ _ _ _ H))).
Defined.

(** A size that is no integer spoils the whole answer, although the time
    is there; a time that cannot be read only goes missing. *)
Example get_file_stat_bad_size :
  FileStat.get_file_stat int_of_field timestamp_of_field true
    (PyStr.lit "Modify: 2026-02-18 20:55:49.0 +0800" ++ [10%N]
     ++ PyStr.lit "Size: 131072" ++ [10%N] ++ PyStr.lit "Size: big")
  = None.
Proof. vm_compute. reflexivity. Qed.
